(** * explain-my-transaction: payment-gated transaction explainer

    A shallow embedding of the four route handlers of the repository

    - [src/app/api/verify-payment/route.ts]            (module [VerifyPayment])
    - [src/app/api/explain/route.ts]                   (module [Explain])
    - the explain route that consults [payTx]          (module [ExplainPaid])
    - the verify route with [MIN_CONFIRMATIONS]        (module [VerifyPaymentConf])

    together with the properties of the specification that concern them.

    Conventions of the embedding.

    - Request strings are sequences of UTF-16 code units ([jsstr]); data
      handed over by ethers (addresses, topics, payloads) are hexadecimal
      ASCII strings and are kept as [string].
    - [bigint] and block heights are [Z]; loop counters are [nat].
    - Every JSON-RPC read goes through the class [Rpc]; a call may throw,
      may change the world, and is appended to a trace.
    - [async] functions are computations in the monad [M]: a state
      transformer over world and trace whose result is a thrown value or a
      returned value; [try]/[catch] is [tryCatch].
    - [Interface.parseLog] and [getAddress] belong to ethers, not to this
      repository: they are the methods of the class [Ethers].
    - Of the verify routes the [GET] handlers are embedded; the [POST]
      handlers read the hash from a JSON body and then run the same
      validation and the same [verify]. *)

From Stdlib Require Import ZArith NArith List String Ascii Bool Lia DecimalString.
From stdpp Require Import base gmap sets strings.
Import ListNotations.
Local Open Scope string_scope.
Local Open Scope Z_scope.

(** ** JavaScript strings of a request *)

(** A request string: its UTF-16 code units. *)
Definition jsstr := list N.

(** A source literal as a request string. *)
Definition lit (s : string) : jsstr :=
  List.map N_of_ascii (list_ascii_of_string s).

(** ECMAScript [WhiteSpace] and [LineTerminator] code units, the ones
    [String.prototype.trim] strips. *)
Definition isWhiteSpace (c : N) : bool :=
  ((c =? 9) || (c =? 10) || (c =? 11) || (c =? 12) || (c =? 13) || (c =? 32)
   || (c =? 160) || (c =? 5760) || ((8192 <=? c) && (c <=? 8202))
   || (c =? 8232) || (c =? 8233) || (c =? 8239) || (c =? 8287)
   || (c =? 12288) || (c =? 65279))%N.

Fixpoint trimStart (s : jsstr) : jsstr :=
  match s with
  | [] => []
  | c :: r => if isWhiteSpace c then trimStart r else s
  end.

Definition trimEnd (s : jsstr) : jsstr := rev (trimStart (rev s)).

(** [s.trim()] *)
Definition trim (s : jsstr) : jsstr := trimEnd (trimStart s).

(** Truthiness of a string: non-empty. *)
Definition truthy (s : jsstr) : bool :=
  match s with [] => false | _ :: _ => true end.

(** [[a-fA-F0-9]] *)
Definition isHexDigit (c : N) : bool :=
  (((48 <=? c) && (c <=? 57)) || ((65 <=? c) && (c <=? 70))
   || ((97 <=? c) && (c <=? 102)))%N.

(** [isTxHash]: [/^0x[a-fA-F0-9]{64}$/.test(x)].  The function is the same
    in all four files.  Without the [m] flag [$] matches at the very end of
    the input only. *)
Definition isTxHash (x : jsstr) : bool :=
  match x with
  | 48%N :: 120%N :: digits =>
      (length digits =? 64)%nat && forallb isHexDigit digits
  | _ => false
  end.

(** The decoded query string of a request, in order, and
    [url.searchParams.get(name)]: the first value under [name], or null. *)
Definition Request := list (jsstr * jsstr).

Fixpoint searchParams_get (req : Request) (name : jsstr) : option jsstr :=
  match req with
  | [] => None
  | (k, v) :: rest =>
      if decide (k = name) then Some v else searchParams_get rest name
  end.

(** [x || ""] for a nullable string. *)
Definition orEmpty (x : option jsstr) : jsstr :=
  match x with
  | Some s => s
  | None => []
  end.

(** ** Hexadecimal strings supplied by ethers *)

Definition lowerAscii (a : ascii) : ascii :=
  let n := N_of_ascii a in
  if ((65 <=? n) && (n <=? 90))%N then ascii_of_N (n + 32) else a.

(** [s.toLowerCase()] on an ASCII string. *)
Fixpoint toLowerCase (s : string) : string :=
  match s with
  | EmptyString => EmptyString
  | String a r => String (lowerAscii a) (toLowerCase r)
  end.

(** Truthiness of a string value of ethers. *)
Definition nonEmpty (s : string) : bool :=
  match s with EmptyString => false | String _ _ => true end.

(** ** Configuration constants *)

Definition PAYMENT_ADDRESS : string := "0x3B5Ca729ae7D427616873f5CD0B9418243090c4c".
Definition USDC_BASE : string := "0x833589fCD6eDb6E08f4c7C32D4f71b54bdA02913".
Definition PRICE_USDC_UNITS : Z := 3000000.
Definition BASE_CHAIN_ID : Z := 8453.
Definition MIN_CONFIRMATIONS : Z := 1.

Definition Url := string.

Definition RPC_URLS : list Url :=
  [ "https://base.publicnode.com";
    "https://mainnet.base.org";
    "https://base.llamarpc.com";
    "https://1rpc.io/base" ].

(** ** Chain data *)

(** An event log as ethers returns it.  ethers always fills [address]; the
    guards [log?.address] of the source treat a missing and an empty
    address alike, and the empty string stands for both. *)
Record Log := mkLog {
  log_address : string;
  log_topics : list string;
  log_data : string
}.

Record TransactionReceipt := mkReceipt {
  rc_status : option Z;
  rc_blockNumber : Z;
  rc_gasUsed : option Z;
  rc_effectiveGasPrice : option Z;
  rc_logs : list Log
}.

Record TransactionResponse := mkTx {
  tx_from : option string;
  tx_to : option string;
  tx_value : option Z;
  tx_data : string;
  tx_blockNumber : option Z
}.

(** The argument of [provider.getLogs]. *)
Record LogFilter := mkFilter {
  fromBlock : Z;
  toBlock : Z;
  filter_address : string;
  filter_topics : list (option string)
}.

(** ** Thrown values, network calls and the monad of route handlers *)

Inductive Exn :=
| RpcFault (detail : string)
| JsError (message : string).

Inductive Call :=
| CallBlockNumber (u : Url)
| CallNetwork (u : Url)
| CallTransaction (u : Url) (hash : jsstr)
| CallReceipt (u : Url) (hash : jsstr)
| CallLogs (u : Url) (f : LogFilter).

(** The read-only interface of a provider.  Each read takes the endpoint
    and the world, throws or answers, and leaves a new world.
    [rpc_getNetwork] answers the chain id, the bigint the source passes
    through [Number] before comparing it with [BASE_CHAIN_ID]: the
    conversion is exact on 8453 and takes no other integer to it. *)
Class Rpc (World : Type) := {
  rpc_getBlockNumber : Url -> World -> (Exn + Z) * World;
  rpc_getNetwork : Url -> World -> (Exn + Z) * World;
  rpc_getTransaction :
    Url -> jsstr -> World -> (Exn + option TransactionResponse) * World;
  rpc_getTransactionReceipt :
    Url -> jsstr -> World -> (Exn + option TransactionReceipt) * World;
  rpc_getLogs : Url -> LogFilter -> World -> (Exn + list Log) * World
}.

Record St (World : Type) := mkSt {
  world : World;
  trace : list Call
}.
Arguments mkSt {World} _ _.
Arguments world {World} _.
Arguments trace {World} _.

Definition M (World : Type) (A : Type) : Type :=
  St World -> (Exn + A) * St World.

Definition ret {W A} (a : A) : M W A := fun s => (inr a, s).

Definition throw {W A} (e : Exn) : M W A := fun s => (inl e, s).

Definition bind {W A B} (m : M W A) (k : A -> M W B) : M W B :=
  fun s =>
    match m s with
    | (inl e, s') => (inl e, s')
    | (inr a, s') => k a s'
    end.

(** [try { m } catch (e) { h e }] *)
Definition tryCatch {W A} (m : M W A) (h : Exn -> M W A) : M W A :=
  fun s =>
    match m s with
    | (inl e, s') => h e s'
    | (inr a, s') => (inr a, s')
    end.

Notation "'let*' x ':=' m 'in' k" := (bind m (fun x => k))
  (at level 10, x name, m at level 100, k at level 200).

(** One network call: recorded on the trace, answered by the world. *)
Definition perform {W A} (c : Call) (f : W -> (Exn + A) * W) : M W A :=
  fun s =>
    let (r, w') := f (world s) in
    (r, mkSt w' (trace s ++ [c])).

Section Provider.
Context {W : Type} `{Rpc W}.

Definition getBlockNumber (p : Url) : M W Z :=
  perform (CallBlockNumber p) (rpc_getBlockNumber p).

Definition getNetwork (p : Url) : M W Z :=
  perform (CallNetwork p) (rpc_getNetwork p).

Definition getTransaction (hash : jsstr) (p : Url) : M W (option TransactionResponse) :=
  perform (CallTransaction p hash) (rpc_getTransaction p hash).

Definition getTransactionReceipt (hash : jsstr) (p : Url) : M W (option TransactionReceipt) :=
  perform (CallReceipt p hash) (rpc_getTransactionReceipt p hash).

Definition getLogs (f : LogFilter) (p : Url) : M W (list Log) :=
  perform (CallLogs p f) (rpc_getLogs p f).

(** The body of the [try] of [withAnyProvider]: the liveness probe, then
    the read on the same provider. *)
Definition attempt {T} (fn : Url -> M W T) (url : Url) : M W T :=
  let* probe := getBlockNumber url in fn url.

(** The [for] loop of [withAnyProvider] over the remaining endpoints, with
    the variable [lastErr], and the final
    [throw lastErr ?? new Error(generic)]. *)
Fixpoint scanProviders {T} (generic : string) (fn : Url -> M W T)
    (urls : list Url) (lastErr : option Exn) : M W T :=
  match urls with
  | [] =>
      throw (match lastErr with
             | Some e => e
             | None => JsError generic
             end)
  | url :: rest =>
      tryCatch (attempt fn url)
               (fun e => scanProviders generic fn rest (Some e))
  end.

(** [withAnyProvider] over an explicit endpoint list. *)
Definition withAnyProviderOver {T} (generic : string) (urls : list Url)
    (fn : Url -> M W T) : M W T :=
  scanProviders generic fn urls None.

End Provider.

(** ** The two ethers functions the routes call *)

Inductive EventFragment := TransferEvent | ApprovalEvent.

Definition fragmentName (f : EventFragment) : string :=
  match f with
  | TransferEvent => "Transfer"
  | ApprovalEvent => "Approval"
  end.

(** What the routes read of a parsed log: its name and the arguments
    [from], [to] and [value].  Reading an argument may throw (ethers defers
    some decoding errors to the access); an argument the fragment does not
    have reads as undefined ([None]). *)
Record LogDescription := mkParsed {
  ld_name : string;
  ld_from : Exn + option string;
  ld_to : Exn + option string;
  ld_value : Exn + Z
}.

Inductive ParseOutcome :=
| ParseThrew (e : Exn)
| ParseNull
| ParseOk (d : LogDescription).

(** [parseLog iface topics data] is
    [new ethers.Interface(iface).parseLog({ topics, data })]; a result it
    returns is an event of the interface.  [getAddress] normalises an
    address or throws. *)
Class Ethers := {
  parseLog : list EventFragment -> list string -> string -> ParseOutcome;
  getAddress : string -> Exn + string;
  parseLog_name : forall iface topics data d,
    parseLog iface topics data = ParseOk d ->
    In (ld_name d) (List.map fragmentName iface)
}.

(** [String(x)] for a nullable string. *)
Definition StringOf (x : option string) : string :=
  match x with
  | Some s => s
  | None => "undefined"
  end.

(** ** The payment sum *)

Section PaymentSum.
Context `{Ethers}.

(** One iteration of the loop over the logs that sums the payment; the
    three copies of the loop ([getPaidAmountFromLogs] in both verify
    routes, the loop of [isPaymentConfirmed]) have this body.  In
    verify-payment/route.ts there is no [if (!parsed) continue]: a null
    result throws at [parsed.args], inside the same [try], and the [catch]
    ignores it. *)
Definition addPayment (total : Z) (log : Log) : Z :=
  if negb (nonEmpty (log_address log)) then total
  else if negb (toLowerCase (log_address log) =? toLowerCase USDC_BASE)%string
  then total
  else
    match parseLog [TransferEvent] (log_topics log) (log_data log) with
    | ParseThrew _ => total
    | ParseNull => total
    | ParseOk parsed =>
        match ld_to parsed with
        | inl _ => total
        | inr to =>
            match ld_value parsed with
            | inl _ => total
            | inr value =>
                if (toLowerCase (StringOf to) =? toLowerCase PAYMENT_ADDRESS)%string
                then total + value
                else total
            end
        end
    end.

(** [let total = 0n; for (const log of logs) { ... } return total] *)
Definition getPaidAmountFromLogs (logs : list Log) : Z :=
  fold_left addPayment logs 0.

End PaymentSum.

(** ** The log classifier of the explain routes *)

Inductive Risk := Low | LowMedium | Medium.

Definition riskLabel (r : Risk) : string :=
  match r with
  | Low => "Low"
  | LowMedium => "Low–Medium"
  | Medium => "Medium"
  end.

Record Metrics := mkMetrics {
  touchedContracts : gset string;
  tokenTransfers : nat;
  approvals : nat
}.

Section Classifier.
Context `{Ethers}.

(** One iteration of [for (const log of receipt.logs)] in both explain
    routes. *)
Definition classifyLog (m : Metrics) (log : Log) : Metrics :=
  let touched :=
    if nonEmpty (log_address log)
    then {[ toLowerCase (log_address log) ]} ∪ touchedContracts m
    else touchedContracts m in
  match parseLog [TransferEvent; ApprovalEvent] (log_topics log) (log_data log) with
  | ParseThrew _ => mkMetrics touched (tokenTransfers m) (approvals m)
  | ParseNull => mkMetrics touched (tokenTransfers m) (approvals m)
  | ParseOk parsed =>
      mkMetrics touched
        (if (ld_name parsed =? "Transfer")%string
         then S (tokenTransfers m) else tokenTransfers m)
        (if (ld_name parsed =? "Approval")%string
         then S (approvals m) else approvals m)
  end.

Definition classifyLogs (logs : list Log) : Metrics :=
  fold_left classifyLog logs (mkMetrics ∅ 0 0).

(** [approvals > 0 ? "Medium" : touchedContracts.size > 1 ? "Low–Medium" : "Low"] *)
Definition riskOf (m : Metrics) : Risk :=
  if (0 <? approvals m)%nat then Medium
  else if (1 <? size (touchedContracts m))%nat then LowMedium
  else Low.

End Classifier.

(** ** Responses *)

Inductive PaymentStatus := CONFIRMED | PENDING | NOT_FOUND | FAILED.

(** The JSON body of the verify routes.  [paidUSDC] holds the sum in token
    units; the source renders it with [toUSDC], a floating-point
    formatting of that number with six decimals. *)
Record PaymentResult := mkPayment {
  ok : bool;
  status : PaymentStatus;
  paidUSDC : option Z;
  message : string
}.

Record HttpResponse := mkHttp {
  http_status : Z;
  body : PaymentResult
}.

(** The fee of the explain route that reports one: the dash, or
    [gasUsed * effectiveGasPrice] in wei, which the source renders in ETH
    with six decimals through floating point. *)
Inductive Fee := FeeDash | FeeOfWei (wei : Z).

(** The JSON body of the explain routes ([fee] is absent in
    src/app/api/explain/route.ts). *)
Record ExplainResponse := mkExplain {
  summary : string;
  fee : option Fee;
  explanation : string;
  basescan : jsstr;
  accessUnlocked : bool
}.

(** [short]: [addr.slice(0, 6) + "…" + addr.slice(-4)], a dash for a
    missing address. *)
Definition short (addr : option string) : string :=
  match addr with
  | None => "—"
  | Some a =>
      if nonEmpty a
      then substring 0 6 a ++ "…" ++ substring (String.length a - 4) 4 a
      else "—"
  end.

Definition showNat (n : nat) : string := NilZero.string_of_uint (Nat.to_uint n).

Definition newline : string := String (ascii_of_nat 10) EmptyString.

(** The six bullet lines, joined by newlines. *)
Definition explanationLines (from to : option string) (m : Metrics) (risk : Risk) : string :=
  "• From: " ++ short from ++ newline ++
  "• To: " ++ short to ++ newline ++
  "• Contracts touched: " ++ showNat (size (touchedContracts m)) ++ newline ++
  "• Token transfers: " ++ showNat (tokenTransfers m) ++ newline ++
  "• Approvals: " ++ showNat (approvals m) ++ newline ++
  "• Risk level: " ++ riskLabel risk.

(** [(transaction.value ?? BigInt(0)) > BigInt(0) && transaction.data === "0x"] *)
Definition isEthTransfer (transaction : TransactionResponse) : bool :=
  Z.ltb 0 (match tx_value transaction with Some v => v | None => 0%Z end)
  && (tx_data transaction =? "0x")%string.

Definition summaryOf (transaction : TransactionResponse) : string :=
  if isEthTransfer transaction then "ETH transfer" else "Contract interaction".

Definition basescanUrl (tx : jsstr) : jsstr :=
  if truthy tx then (lit "https://basescan.org/tx/" ++ tx)%list
  else lit "https://basescan.org".

(** A synchronous result inside a handler. *)
Definition liftE {W A} (r : Exn + A) : M W A := fun s => (r, s).

Section Normalise.
Context `{Ethers}.

(** [x ? ethers.getAddress(x) : null] *)
Definition normalise (x : option string) : Exn + option string :=
  match x with
  | None => inr None
  | Some a =>
      if nonEmpty a
      then match getAddress a with
           | inl e => inl e
           | inr a' => inr (Some a')
           end
      else inr None
  end.

End Normalise.

(** ** Constants computed by ethers in the logs fallback *)

(** [iface.getEvent("Transfer")!.topicHash]: the Keccak-256 hash of
    [Transfer(address,address,uint256)]. *)
Definition TRANSFER_TOPIC : string :=
  "0xddf252ad1be2c89b69c2b068fc378daa952ba7f163c4a11628f55a4df523b3ef".

(** The Keccak-256 hash of [Approval(address,address,uint256)]. *)
Definition APPROVAL_TOPIC : string :=
  "0x8c5be1e5ebec7d5bd14f71427d1e84f3dd0314c0f7b2291e5b200ac8c7c3b925".

(** [ethers.zeroPadValue(addr, 32)] of a 20-byte address. *)
Definition zeroPadValue32 (addr : string) : string :=
  "0x000000000000000000000000" ++ toLowerCase (substring 2 40 addr).

(** [receipt.status !== 1], negated. *)
Definition statusIsOne (receipt : TransactionReceipt) : bool :=
  match rc_status receipt with
  | Some s => s =? 1
  | None => false
  end.

(** The block of a mined transaction; [!tx.blockNumber] holds of null and
    of 0. *)
Definition minedBlock (tx : TransactionResponse) : option Z :=
  match tx_blockNumber tx with
  | Some bn => if bn =? 0 then None else Some bn
  | None => None
  end.

(** The filter of the logs fallback. *)
Definition fallbackFilter (bn : Z) : LogFilter :=
  mkFilter bn bn USDC_BASE
    [Some TRANSFER_TOPIC; None; Some (zeroPadValue32 PAYMENT_ADDRESS)].

(** ** src/app/api/verify-payment/route.ts *)

Module VerifyPayment.
Section Route.
Context {W : Type} `{Rpc W} `{Ethers}.

Definition withAnyProvider {T} (fn : Url -> M W T) : M W T :=
  withAnyProviderOver "All RPC providers failed" RPC_URLS fn.

Definition verify (txHash : jsstr) : M W PaymentResult :=
  let* network := withAnyProvider getNetwork in
  if negb (network =? BASE_CHAIN_ID) then
    ret (mkPayment false FAILED None "Wrong network. Payment must be on Base.")
  else
    let* receipt :=
      tryCatch (withAnyProvider (getTransactionReceipt txHash))
               (fun _ => ret None) in
    match receipt with
    | Some receipt =>
        if negb (statusIsOne receipt) then
          ret (mkPayment false FAILED None "Transaction failed.")
        else
          let paid := getPaidAmountFromLogs (rc_logs receipt) in
          if PRICE_USDC_UNITS <=? paid then
            ret (mkPayment true CONFIRMED (Some paid) "Payment confirmed.")
          else
            ret (mkPayment true PENDING (Some paid)
                   "Transaction found, but payment not detected yet.")
    | None =>
        let* tx := withAnyProvider (getTransaction txHash) in
        match tx with
        | None => ret (mkPayment true NOT_FOUND None "Transaction not found yet.")
        | Some tx =>
            match minedBlock tx with
            | None =>
                ret (mkPayment true PENDING None "Transaction is still pending.")
            | Some bn =>
                let* logs := withAnyProvider (getLogs (fallbackFilter bn)) in
                let paid := getPaidAmountFromLogs logs in
                if PRICE_USDC_UNITS <=? paid then
                  ret (mkPayment true CONFIRMED (Some paid)
                         "Payment confirmed (logs fallback).")
                else
                  ret (mkPayment true PENDING (Some paid)
                         "Transaction found, waiting for payment.")
            end
        end
    end.

(** [GET ?payTx=0x...] *)
Definition GET (req : Request) : M W HttpResponse :=
  let txHash := trim (orEmpty (searchParams_get req (lit "payTx"))) in
  if negb (isTxHash txHash) then
    ret (mkHttp 400 (mkPayment false FAILED None "Invalid tx hash."))
  else
    let* result := verify txHash in
    ret (mkHttp 200 result).

End Route.
End VerifyPayment.

(** ** The verify route with a minimum number of confirmations *)

Module VerifyPaymentConf.
Section Route.
Context {W : Type} `{Rpc W} `{Ethers}.

Definition withAnyProvider {T} (fn : Url -> M W T) : M W T :=
  withAnyProviderOver "All RPC providers failed" RPC_URLS fn.

Definition verify (txHash : jsstr) : M W PaymentResult :=
  let* network := withAnyProvider getNetwork in
  if negb (network =? BASE_CHAIN_ID) then
    ret (mkPayment false FAILED None "Wrong network. Payment must be on Base.")
  else
    let* receipt :=
      tryCatch (withAnyProvider (getTransactionReceipt txHash))
               (fun _ => ret None) in
    match receipt with
    | Some receipt =>
        if negb (statusIsOne receipt) then
          ret (mkPayment false FAILED None "Transaction failed.")
        else
          let* latestBlock := withAnyProvider getBlockNumber in
          let confirmations := latestBlock - rc_blockNumber receipt + 1 in
          if confirmations <? MIN_CONFIRMATIONS then
            ret (mkPayment true PENDING None "Waiting for confirmations.")
          else
            let paid := getPaidAmountFromLogs (rc_logs receipt) in
            if PRICE_USDC_UNITS <=? paid then
              ret (mkPayment true CONFIRMED (Some paid) "Payment confirmed.")
            else
              ret (mkPayment true PENDING (Some paid)
                     "Transaction found, but payment not detected yet.")
    | None =>
        let* tx := withAnyProvider (getTransaction txHash) in
        match tx with
        | None => ret (mkPayment true NOT_FOUND None "Transaction not found yet.")
        | Some tx =>
            match minedBlock tx with
            | None =>
                ret (mkPayment true PENDING None "Transaction is still pending.")
            | Some bn =>
                let* logs := withAnyProvider (getLogs (fallbackFilter bn)) in
                let paid := getPaidAmountFromLogs logs in
                if PRICE_USDC_UNITS <=? paid then
                  ret (mkPayment true CONFIRMED (Some paid)
                         "Payment confirmed (logs fallback).")
                else
                  ret (mkPayment true PENDING (Some paid)
                         "Transaction found, waiting for payment.")
            end
        end
    end.

Definition GET (req : Request) : M W HttpResponse :=
  let txHash := trim (orEmpty (searchParams_get req (lit "payTx"))) in
  if negb (isTxHash txHash) then
    ret (mkHttp 400 (mkPayment false FAILED None "Invalid tx hash."))
  else
    let* result := verify txHash in
    ret (mkHttp 200 result).

End Route.
End VerifyPaymentConf.

(** ** src/app/api/explain/route.ts *)

Module Explain.
Section Route.
Context {W : Type} `{Rpc W} `{Ethers}.

Definition withAnyProvider {T} (fn : Url -> M W T) : M W T :=
  withAnyProviderOver "All providers failed" RPC_URLS fn.

Definition GET (req : Request) : M W ExplainResponse :=
  let tx := trim (orEmpty (searchParams_get req (lit "tx"))) in
  if negb (truthy tx) || negb (isTxHash tx) then
    ret (mkExplain "Paste a transaction hash" None
           "Enter a valid Base transaction hash to see what really happened."
           (basescanUrl tx) false)
  else
    tryCatch
      (let* transaction := withAnyProvider (getTransaction tx) in
       let* receipt := withAnyProvider (getTransactionReceipt tx) in
       match transaction, receipt with
       | Some transaction, Some receipt =>
           let* from := liftE (normalise (tx_from transaction)) in
           let* to := liftE (normalise (tx_to transaction)) in
           let m := classifyLogs (rc_logs receipt) in
           let risk := riskOf m in
           ret (mkExplain (summaryOf transaction) None
                  (explanationLines from to m risk) (basescanUrl tx) true)
       | _, _ =>
           ret (mkExplain "Transaction found" None
                  "We found this transaction, but details are still loading. Try again shortly."
                  (basescanUrl tx) false)
       end)
      (fun _ =>
         ret (mkExplain "Unable to analyze transaction" None
                "We couldn’t analyze this transaction right now. Please try again."
                (basescanUrl tx) false)).

End Route.
End Explain.

(** ** The explain route that decides the unlock flag from [payTx] *)

Module ExplainPaid.
Section Route.
Context {W : Type} `{Rpc W} `{Ethers}.

Definition withAnyProvider {T} (fn : Url -> M W T) : M W T :=
  withAnyProviderOver "All providers failed" RPC_URLS fn.

(** Payment verification (lightweight). *)
Definition isPaymentConfirmed (payTx : jsstr) : M W bool :=
  if negb (isTxHash payTx) then ret false
  else
    let* receipt :=
      tryCatch (withAnyProvider (getTransactionReceipt payTx))
               (fun _ => ret None) in
    match receipt with
    | None => ret false
    | Some receipt =>
        if negb (statusIsOne receipt) then ret false
        else
          let paid := fold_left addPayment (rc_logs receipt) 0 in
          ret (PRICE_USDC_UNITS <=? paid)
    end.

(** Step 2 of [GET], over the check it awaits:
    [let accessUnlocked = false;
     if (payTx) { try { accessUnlocked = await check(payTx) }
                  catch { accessUnlocked = false } }] *)
Definition decideUnlock (check : jsstr -> M W bool) (payTx : jsstr) : M W bool :=
  if truthy payTx then tryCatch (check payTx) (fun _ => ret false)
  else ret false.

(** The best-effort fee of a receipt. *)
Definition feeOf (receipt : option TransactionReceipt) : Fee :=
  match receipt with
  | Some r =>
      match rc_gasUsed r, rc_effectiveGasPrice r with
      | Some gasUsed, Some effectiveGasPrice => FeeOfWei (gasUsed * effectiveGasPrice)
      | _, _ => FeeDash
      end
  | None => FeeDash
  end.

(** [GET] with the payment check as a parameter. *)
Definition GET_with (check : jsstr -> M W bool) (req : Request) : M W ExplainResponse :=
  let tx := trim (orEmpty (searchParams_get req (lit "tx"))) in
  let payTx := trim (orEmpty (searchParams_get req (lit "payTx"))) in
  if negb (truthy tx) || negb (isTxHash tx) then
    ret (mkExplain "Paste a transaction hash" (Some FeeDash)
           "Enter a valid Base transaction hash (0x...) and press Explain."
           (basescanUrl tx) false)
  else
    let* accessUnlocked := decideUnlock check payTx in
    tryCatch
      (let* transaction := withAnyProvider (getTransaction tx) in
       let* receipt := withAnyProvider (getTransactionReceipt tx) in
       match transaction with
       | None =>
           ret (mkExplain "We can’t load details right now" (Some FeeDash)
                  "This transaction may be real, but we couldn’t load its details at the moment. Open it on BaseScan and try again in a minute."
                  (basescanUrl tx) accessUnlocked)
       | Some transaction =>
           let fee := feeOf receipt in
           let* from := liftE (normalise (tx_from transaction)) in
           let* to := liftE (normalise (tx_to transaction)) in
           let m :=
             match receipt with
             | Some receipt => classifyLogs (rc_logs receipt)
             | None => mkMetrics ∅ 0 0
             end in
           let risk := riskOf m in
           ret (mkExplain (summaryOf transaction) (Some fee)
                  (explanationLines from to m risk) (basescanUrl tx)
                  accessUnlocked)
       end)
      (fun _ =>
         ret (mkExplain "We can’t load details right now" (Some FeeDash)
                "We couldn’t load enough information at the moment. Open it on BaseScan and try again."
                (basescanUrl tx) accessUnlocked)).

Definition GET (req : Request) : M W ExplainResponse :=
  GET_with isPaymentConfirmed req.

End Route.
End ExplainPaid.

(** ** A positional decoder and a static pool, for concrete runs *)

Definition hexDigitValue (a : ascii) : option Z :=
  let n := Z.of_N (N_of_ascii a) in
  if (48 <=? n) && (n <=? 57) then Some (n - 48)
  else if (65 <=? n) && (n <=? 70) then Some (n - 55)
  else if (97 <=? n) && (n <=? 102) then Some (n - 87)
  else None.

Fixpoint hexValueFrom (acc : Z) (s : string) : option Z :=
  match s with
  | EmptyString => Some acc
  | String a r =>
      match hexDigitValue a with
      | Some d => hexValueFrom (16 * acc + d) r
      | None => None
      end
  end.

Definition topicHash (f : EventFragment) : string :=
  match f with
  | TransferEvent => TRANSFER_TOPIC
  | ApprovalEvent => APPROVAL_TOPIC
  end.

(** An indexed address: a 32-byte word whose upper twelve bytes are zero.
    The address is given in lower case; ethers returns the checksum case,
    which the routes lower again before comparing. *)
Definition addressOfTopic (t : string) : Exn + option string :=
  if ((String.length t =? 66)%nat
      && (substring 0 26 t =? "0x000000000000000000000000")%string)
  then match hexValueFrom 0 (substring 26 40 t) with
       | Some _ => inr (Some ("0x" ++ toLowerCase (substring 26 40 t)))
       | None => inl (JsError "invalid address")
       end
  else inl (JsError "invalid address").

(** The first 32-byte word of a payload as an unsigned integer. *)
Definition uintOfData (d : string) : option Z :=
  if ((66 <=? String.length d)%nat && (substring 0 2 d =? "0x")%string)
  then hexValueFrom 0 (substring 2 64 d)
  else None.

(** Decoding of the two ERC-20 events: the first topic selects the
    fragment, the next two topics are the indexed addresses, the payload is
    the amount.  A first topic of no fragment gives null; a selected
    fragment with too few topics or too short a payload throws. *)
Definition abiParseLog (iface : list EventFragment) (topics : list string)
    (data : string) : ParseOutcome :=
  match topics with
  | [] => ParseThrew (JsError "missing topic")
  | t0 :: indexed =>
      match List.find (fun f => (topicHash f =? toLowerCase t0)%string) iface with
      | None => ParseNull
      | Some f =>
          match indexed, uintOfData data with
          | a :: b :: _, Some v =>
              ParseOk
                (match f with
                 | TransferEvent =>
                     mkParsed (fragmentName f) (addressOfTopic a)
                       (addressOfTopic b) (inr v)
                 | ApprovalEvent =>
                     mkParsed (fragmentName f) (inr None) (inr None) (inr v)
                 end)
          | _, _ => ParseThrew (JsError "data out-of-bounds")
          end
      end
  end.

(** Acceptance of a 20-byte hexadecimal address; the address is returned
    as given (the checksum case of ethers needs Keccak-256). *)
Definition checkedAddress (a : string) : Exn + string :=
  if ((String.length a =? 42)%nat && (substring 0 2 a =? "0x")%string)
  then match hexValueFrom 0 (substring 2 40 a) with
       | Some _ => inr a
       | None => inl (JsError "invalid address")
       end
  else inl (JsError "invalid address").

#[export] Instance abiDecoder : Ethers.
Proof.
  refine {| parseLog := abiParseLog; getAddress := checkedAddress |}.
  intros iface topics data d. unfold abiParseLog.
  destruct topics as [|t0 indexed]; [discriminate|].
  destruct (List.find _ iface) as [f|] eqn:Hfind; [|discriminate].
  apply List.find_some in Hfind as [Hin _].
  destruct indexed as [|a [|b rest]]; try discriminate;
    destruct (uintOfData data); try discriminate.
  intros [= <-].
  destruct f; apply (List.in_map fragmentName) in Hin; exact Hin.
Defined.

(** One endpoint of a static pool: down, or up with a chain id, a height
    and its view of the chain. *)
Record Node := mkNode {
  node_up : bool;
  node_chainId : Z;
  node_height : Z;
  node_transactions : list (jsstr * TransactionResponse);
  node_receipts : list (jsstr * TransactionReceipt);
  node_logs : list Log
}.

Definition Pool := list (Url * Node).

Fixpoint nodeOf (pool : Pool) (u : Url) : option Node :=
  match pool with
  | [] => None
  | (k, n) :: rest => if (k =? u)%string then Some n else nodeOf rest u
  end.

Fixpoint entryOf {A} (table : list (jsstr * A)) (hash : jsstr) : option A :=
  match table with
  | [] => None
  | (k, a) :: rest => if decide (k = hash) then Some a else entryOf rest hash
  end.

(** A read on a static pool: an endpoint that is absent or down throws. *)
Definition answer {A} (pool : Pool) (u : Url) (f : Node -> A) : (Exn + A) * Pool :=
  match nodeOf pool u with
  | Some n => if node_up n then (inr (f n), pool) else (inl (RpcFault u), pool)
  | None => (inl (RpcFault u), pool)
  end.

#[export] Instance staticPool : Rpc Pool := {|
  rpc_getBlockNumber u pool := answer pool u node_height;
  rpc_getNetwork u pool := answer pool u node_chainId;
  rpc_getTransaction u hash pool :=
    answer pool u (fun n => entryOf (node_transactions n) hash);
  rpc_getTransactionReceipt u hash pool :=
    answer pool u (fun n => entryOf (node_receipts n) hash);
  rpc_getLogs u f pool := answer pool u node_logs
|}.

(** ** Vocabulary of the specification *)

Section FailoverSpec.
Context {W : Type} `{Rpc W}.

(** [allThrow run urls s last s' last']: run in turn from state [s], the
    computation [run u] throws for every endpoint [u] of [urls]; the scan
    ends in state [s'] and [last'] is the last error observed ([last] when
    [urls] is empty). *)
Inductive allThrow {T} (run : Url -> M W T) :
    list Url -> St W -> option Exn -> St W -> option Exn -> Prop :=
| allThrow_nil s last : allThrow run [] s last s last
| allThrow_cons u rest s e s1 last s' last' :
    run u s = (inl e, s1) ->
    allThrow run rest s1 (Some e) s' last' ->
    allThrow run (u :: rest) s last s' last'.

(** The calls a liveness probe and a network query make. *)
Definition isProbeOrNetwork (c : Call) : bool :=
  match c with
  | CallBlockNumber _ | CallNetwork _ => true
  | _ => false
  end.

End FailoverSpec.

Section PaymentSpec.
Context `{Ethers}.

Definition isUpperCase (a : ascii) : bool :=
  ((65 <=? N_of_ascii a) && (N_of_ascii a <=? 90))%N.

(** Two characters that are equal, or the upper-case and the lower-case
    form of one letter. *)
Definition sameLetter (a b : ascii) : bool :=
  (a =? b)%char
  || (isUpperCase a && (N_of_ascii a + 32 =? N_of_ascii b)%N)
  || (isUpperCase b && (N_of_ascii b + 32 =? N_of_ascii a)%N).

(** Case-insensitive match of two strings, letter by letter. *)
Fixpoint equalIgnoringCase (s t : string) : bool :=
  match s, t with
  | EmptyString, EmptyString => true
  | String a s', String b t' => sameLetter a b && equalIgnoringCase s' t'
  | _, _ => false
  end.

(** The amount a log contributes under the specification: the log is
    emitted by the stablecoin contract and decodes as a Transfer whose
    recipient is the payment address. *)
Definition qualifyingAmount (log : Log) : option Z :=
  if equalIgnoringCase (log_address log) USDC_BASE then
    match parseLog [TransferEvent] (log_topics log) (log_data log) with
    | ParseOk d =>
        if (ld_name d =? "Transfer")%string then
          match ld_to d, ld_value d with
          | inr (Some to), inr amount =>
              if equalIgnoringCase to PAYMENT_ADDRESS then Some amount else None
          | _, _ => None
          end
        else None
    | _ => None
    end
  else None.

(** The sum of the amounts of the qualifying logs. *)
Fixpoint qualifyingSum (logs : list Log) : Z :=
  match logs with
  | [] => 0
  | log :: rest =>
      match qualifyingAmount log with
      | Some amount => amount + qualifyingSum rest
      | None => qualifyingSum rest
      end
  end.

End PaymentSpec.

(** Two parse outcomes that differ at most in the sender they report. *)
Definition sameButSender (a b : ParseOutcome) : Prop :=
  match a, b with
  | ParseThrew _, ParseThrew _ => True
  | ParseNull, ParseNull => True
  | ParseOk x, ParseOk y =>
      ld_name x = ld_name y /\ ld_to x = ld_to y /\ ld_value x = ld_value y
  | _, _ => False
  end.

(** Every character, for exhaustive checks. *)
Definition allAscii : list ascii :=
  List.map (fun n => ascii_of_nat n) (List.seq 0 256).

(** The positional decoder with the sender withheld. *)
Definition withoutSender (o : ParseOutcome) : ParseOutcome :=
  match o with
  | ParseOk d => ParseOk (mkParsed (ld_name d) (inr None) (ld_to d) (ld_value d))
  | ParseThrew e => ParseThrew e
  | ParseNull => ParseNull
  end.

Definition senderBlind : Ethers.
Proof.
  refine {| parseLog := fun iface topics data =>
                          withoutSender (abiParseLog iface topics data);
            getAddress := checkedAddress |}.
  intros iface topics data d Hd.
  destruct (abiParseLog iface topics data) as [e| |d0] eqn:Hp; try discriminate.
  injection Hd as <-. cbn [ld_name].
  exact (@parseLog_name abiDecoder iface topics data d0 Hp).
Defined.

(** ** Vocabulary for the explain routes *)

(** The request parameters as the routes read them. *)
Definition txParam (req : Request) : jsstr :=
  trim (orEmpty (searchParams_get req (lit "tx"))).

Definition payTxParam (req : Request) : jsstr :=
  trim (orEmpty (searchParams_get req (lit "payTx"))).

(** The verdict of a payment check run from a state: the boolean it
    returns, false when it throws. *)
Definition verdictOf {W} (r : (Exn + bool) * St W) : bool :=
  match fst r with
  | inr b => b
  | inl _ => false
  end.

(** The unlock flag and the status of a finished run. *)
Definition flagOf {W} (r : (Exn + ExplainResponse) * St W) : option bool :=
  match fst r with
  | inr resp => Some (accessUnlocked resp)
  | inl _ => None
  end.

Definition statusOf {W} (r : (Exn + PaymentResult) * St W) : option PaymentStatus :=
  match fst r with
  | inr result => Some (status result)
  | inl _ => None
  end.

Section ClassifierSpec.
Context `{Ethers}.

(** The lower-cased emitting addresses of the logs that carry one. *)
Definition emitters (logs : list Log) : gset string :=
  list_to_set
    (List.map (fun log => toLowerCase (log_address log))
       (List.filter (fun log => nonEmpty (log_address log)) logs)).

(** The log decodes, against the two ERC-20 events, as the event [name]. *)
Definition decodesAs (name : string) (log : Log) : bool :=
  match parseLog [TransferEvent; ApprovalEvent] (log_topics log) (log_data log) with
  | ParseOk d => (ld_name d =? name)%string
  | _ => false
  end.

Definition countDecoded (name : string) (logs : list Log) : nat :=
  length (List.filter (decodesAs name) logs).

End ClassifierSpec.

(** ** A concrete chain *)

Definition payHash : jsstr :=
  lit "0x1111111111111111111111111111111111111111111111111111111111111111".
Definition shortHash : jsstr :=
  lit "0x3333333333333333333333333333333333333333333333333333333333333333".
Definition mixedHash : jsstr :=
  lit "0x4444444444444444444444444444444444444444444444444444444444444444".
Definition brokenHash : jsstr :=
  lit "0x5555555555555555555555555555555555555555555555555555555555555555".
Definition unknownHash : jsstr :=
  lit "0x6666666666666666666666666666666666666666666666666666666666666666".
Definition targetHash : jsstr :=
  lit "0x2222222222222222222222222222222222222222222222222222222222222222".

(** A hash with a leading space. *)
Definition paddedHash : jsstr := 32%N :: payHash.

Definition payer : string := "0xAaAaAaAaAaAaAaAaAaAaAaAaAaAaAaAaAaAaAaAa".
Definition payerTopic : string :=
  "0x000000000000000000000000aaaaaaaaaaaaaaaaaaaaaaaaaaaaaaaaaaaaaaaa".
Definition WETH : string := "0x4200000000000000000000000000000000000006".

(** 3000000 and 2999999 as 32-byte words. *)
Definition threeUSDC : string :=
  "0x00000000000000000000000000000000000000000000000000000000002dc6c0".
Definition oneUnitShort : string :=
  "0x00000000000000000000000000000000000000000000000000000000002dc6bf".

(** A USDC transfer to the payment address. *)
Definition usdcTransfer (amount : string) : Log :=
  mkLog USDC_BASE
    [TRANSFER_TOPIC; payerTopic; zeroPadValue32 PAYMENT_ADDRESS] amount.

(** A log of the USDC contract with the Transfer topic and nothing else. *)
Definition brokenTransfer : Log := mkLog USDC_BASE [TRANSFER_TOPIC] "0x".

(** An approval on another token contract. *)
Definition wethApproval : Log :=
  mkLog WETH [APPROVAL_TOPIC; payerTopic; zeroPadValue32 PAYMENT_ADDRESS] threeUSDC.

(** A transfer of another token to the payment address. *)
Definition wethTransfer : Log :=
  mkLog WETH [TRANSFER_TOPIC; payerTopic; zeroPadValue32 PAYMENT_ADDRESS] threeUSDC.

Definition receiptWith (block : Z) (logs : list Log) : TransactionReceipt :=
  mkReceipt (Some 1) block (Some 21000) (Some 1000000) logs.

Definition targetTx : TransactionResponse :=
  mkTx (Some payer) (Some WETH) (Some 5) "0x" (Some 90).

(** A node on Base at height 100.  The payment [payHash] sits in block
    101, one block above the height the node reports. *)
Definition baseNode : Node :=
  mkNode true 8453 100
    [(targetHash, targetTx)]
    [(payHash, receiptWith 101 [usdcTransfer threeUSDC]);
     (shortHash, receiptWith 95 [usdcTransfer oneUnitShort]);
     (mixedHash, receiptWith 95 [brokenTransfer; usdcTransfer threeUSDC]);
     (brokenHash, receiptWith 95 [brokenTransfer]);
     (targetHash, receiptWith 90 [wethApproval; usdcTransfer threeUSDC])]
    [].

(** The same chain served under another network identifier. *)
Definition otherNetworkNode : Node :=
  mkNode true 1 100 (node_transactions baseNode) (node_receipts baseNode) [].

Definition downNode : Node := mkNode false 0 0 [] [] [].

(** The four endpoints with only the last one alive. *)
Definition lastAlive (n : Node) : Pool :=
  [ ("https://base.publicnode.com", downNode);
    ("https://mainnet.base.org", downNode);
    ("https://base.llamarpc.com", downNode);
    ("https://1rpc.io/base", n) ].

Definition allDown : Pool := lastAlive downNode.

Definition start (pool : Pool) : St Pool := mkSt pool [].

(** A payment check that throws. *)
Definition throwingCheck (payTx : jsstr) : M Pool bool :=
  throw (JsError "check failed").

(** An explain request, with and without a payment reference. *)
Definition explainRequest (tx : jsstr) (payTx : option jsstr) : Request :=
  match payTx with
  | Some p => [(lit "tx", tx); (lit "payTx", p)]
  | None => [(lit "tx", tx)]
  end.

Definition verifyRequest (payTx : jsstr) : Request := [(lit "payTx", payTx)].

(** ** src/app/page.tsx: the display helpers *)

Module Page.

(** The character "…" of the template literals. *)
Definition ELLIPSIS : N := 8230%N.

(** [s.slice(-n)]: the last [n] code units, the whole string when it is
    shorter. *)
Definition sliceLast (n : nat) (s : jsstr) : jsstr :=
  skipn (length s - n) s.

(** [shortHash]: the trimmed hash, abbreviated to its first ten and last
    eight code units when it is longer than 18. *)
Definition shortHash (h : jsstr) : jsstr :=
  let v := trim h in
  if negb (truthy v) then []
  else if (length v <=? 18)%nat then v
  else (firstn 10 v ++ [ELLIPSIS] ++ sliceLast 8 v)%list.

(** [shortAddr]: [`${a.slice(0, 6)}…${a.slice(-4)}`] *)
Definition shortAddr (a : jsstr) : jsstr :=
  (firstn 6 a ++ [ELLIPSIS] ++ sliceLast 4 a)%list.

End Page.

(** ** Vocabulary for the calls of a handler *)

Section CallSpec.
Context {W : Type}.

(** Every run of [fn] on an endpoint issues exactly the call [c] of that
    endpoint. *)
Definition singleCall {T} (fn : Url -> M W T) (c : Url -> Call) : Prop :=
  forall u s, trace (snd (fn u s)) = (trace s ++ [c u])%list.

(** From [s] to [s'] the trace grew by at most [n] calls. *)
Definition within (n : nat) (s s' : St W) : Prop :=
  exists calls, trace s' = (trace s ++ calls)%list /\ (length calls <= n)%nat.

End CallSpec.

(** The endpoint a call goes to. *)
Definition endpointOf (c : Call) : Url :=
  match c with
  | CallBlockNumber u | CallNetwork u | CallTransaction u _
  | CallReceipt u _ | CallLogs u _ => u
  end.

(** A liveness probe or a receipt query for the given hash. *)
Definition isProbeOrReceiptOf (hash : jsstr) (c : Call) : Prop :=
  match c with
  | CallBlockNumber _ => True
  | CallReceipt _ h => h = hash
  | _ => False
  end.

(** The receipt query gave nothing: null, or every endpoint failed and the
    [catch] left the receipt null. *)
Definition noReceipt (r : Exn + option TransactionReceipt) : Prop :=
  r = inr None \/ exists e, r = inl e.

(** A consistent body of the verify routes: [ok] is false exactly for
    FAILED; CONFIRMED carries an amount that reaches the price; an amount
    carried by PENDING is below the price; NOT_FOUND and FAILED carry no
    amount. *)
Definition consistentResult (res : PaymentResult) : Prop :=
  (ok res = false <-> status res = FAILED)
  /\ (status res = CONFIRMED ->
      exists p, paidUSDC res = Some p /\ PRICE_USDC_UNITS <= p)
  /\ (status res = PENDING ->
      forall p, paidUSDC res = Some p -> p < PRICE_USDC_UNITS)
  /\ (status res = NOT_FOUND \/ status res = FAILED -> paidUSDC res = None).

(** The decoder reports amounts as unsigned integers, as ethers does for
    [uint256]. *)
Definition unsignedValues (E : Ethers) : Prop :=
  forall topics data d v,
    @parseLog E [TransferEvent] topics data = ParseOk d ->
    ld_value d = inr v -> 0 <= v.

(** A string of white space only. *)
Definition blank (ws : jsstr) : Prop :=
  Forall (fun c => isWhiteSpace c = true) ws.

(** The code units up to "f", for exhaustive checks. *)
Definition lowUnits : list N := List.map N.of_nat (List.seq 0 103).

(** ** Further concrete chains *)

(** The payment as a transaction, mined in block 101 and still unmined. *)
Definition minedPayment : TransactionResponse :=
  mkTx (Some payer) (Some USDC_BASE) (Some 0) "0xa9059cbb" (Some 101).

Definition unminedPayment : TransactionResponse :=
  mkTx (Some payer) (Some USDC_BASE) (Some 0) "0xa9059cbb" None.

(** A node that knows the transactions but has indexed no receipt yet; it
    answers log queries with the transfer of the payment. *)
Definition laggingNode : Node :=
  mkNode true 8453 105
    [(payHash, minedPayment); (targetHash, targetTx)]
    []
    [usdcTransfer threeUSDC].

(** A node that has the payment in its pool of pending transactions. *)
Definition mempoolNode : Node :=
  mkNode true 8453 105 [(payHash, unminedPayment)] [] [].

(** A node that knows nothing. *)
Definition emptyNode : Node := mkNode true 8453 105 [] [] [].

(** A node on which the payment reverted, served with a transfer log. *)
Definition revertedReceipt : TransactionReceipt :=
  mkReceipt (Some 0) 101 (Some 21000) (Some 1000000) [usdcTransfer threeUSDC].

Definition revertedNode : Node :=
  mkNode true 8453 105 [] [(payHash, revertedReceipt)] [].

(** The four endpoints with the first one down and the second one alive;
    the third one reports another network. *)
Definition secondAlive : Pool :=
  [ ("https://base.publicnode.com", downNode);
    ("https://mainnet.base.org", baseNode);
    ("https://base.llamarpc.com", otherNetworkNode);
    ("https://1rpc.io/base", baseNode) ].

(** The logs of the target receipt with the case of one address changed. *)
Definition usdcTransferUpper : Log :=
  mkLog "0x833589FCD6EDB6E08F4C7C32D4F71B54BDA02913"
    [TRANSFER_TOPIC; payerTopic; zeroPadValue32 PAYMENT_ADDRESS] threeUSDC.

(** * Properties *)

(** ** The embedding on concrete inputs *)

Example isTxHash_accepts : isTxHash payHash = true.
Proof. reflexivity. Qed.

Example isTxHash_rejects_short :
  isTxHash (lit "0x111111111111111111111111111111111111111111111111111111111111111") = false.
Proof. reflexivity. Qed.

Example isTxHash_rejects_trailing_newline :
  isTxHash (payHash ++ [10%N])%list = false.
Proof. reflexivity. Qed.

Example isTxHash_rejects_non_hex :
  isTxHash (lit "0x111111111111111111111111111111111111111111111111111111111111111g") = false.
Proof. reflexivity. Qed.

Example trim_strips_both_ends :
  trim ([9%N; 32%N] ++ payHash ++ [160%N; 10%N])%list = payHash.
Proof. reflexivity. Qed.

Example trim_keeps_inner_space :
  trim (lit " a b ") = lit "a b".
Proof. reflexivity. Qed.

Example searchParams_get_first :
  searchParams_get [(lit "tx", lit "a"); (lit "tx", lit "b")] (lit "tx")
  = Some (lit "a").
Proof. reflexivity. Qed.

Example toLowerCase_address :
  toLowerCase USDC_BASE = "0x833589fcd6edb6e08f4c7c32d4f71b54bda02913".
Proof. reflexivity. Qed.

Example zeroPadValue32_payment :
  zeroPadValue32 PAYMENT_ADDRESS
  = "0x0000000000000000000000003b5ca729ae7d427616873f5cd0b9418243090c4c".
Proof. reflexivity. Qed.

Example short_address : short (Some PAYMENT_ADDRESS) = "0x3B5C…0c4c".
Proof. reflexivity. Qed.

Example abiParseLog_transfer :
  abiParseLog [TransferEvent] (log_topics (usdcTransfer threeUSDC))
    (log_data (usdcTransfer threeUSDC))
  = ParseOk (mkParsed "Transfer"
               (inr (Some "0xaaaaaaaaaaaaaaaaaaaaaaaaaaaaaaaaaaaaaaaa"))
               (inr (Some "0x3b5ca729ae7d427616873f5cd0b9418243090c4c"))
               (inr 3000000)).
Proof. vm_compute. reflexivity. Qed.

Example abiParseLog_unknown_event :
  abiParseLog [TransferEvent] (log_topics wethApproval) (log_data wethApproval)
  = ParseNull.
Proof. vm_compute. reflexivity. Qed.

(** Every endpoint is probed again on each read: the receipt query of a
    verification starts over at the first endpoint. *)
Example verify_trace :
  trace (snd (VerifyPayment.verify payHash (start (lastAlive baseNode))))
  = [ CallBlockNumber "https://base.publicnode.com";
      CallBlockNumber "https://mainnet.base.org";
      CallBlockNumber "https://base.llamarpc.com";
      CallBlockNumber "https://1rpc.io/base";
      CallNetwork "https://1rpc.io/base";
      CallBlockNumber "https://base.publicnode.com";
      CallBlockNumber "https://mainnet.base.org";
      CallBlockNumber "https://base.llamarpc.com";
      CallBlockNumber "https://1rpc.io/base";
      CallReceipt "https://1rpc.io/base" payHash ].
Proof. vm_compute. reflexivity. Qed.

(** ** The provider pool *)

Section FailoverFacts.
Context {W : Type} `{Rpc W}.

Lemma attempt_probe_throws {T} (fn : Url -> M W T) u s e s1 :
  getBlockNumber u s = (inl e, s1) -> attempt fn u s = (inl e, s1).
Proof. intros Hp. unfold attempt, bind. now rewrite Hp. Qed.

Lemma attempt_probe_answers {T} (fn : Url -> M W T) u s height s1 :
  getBlockNumber u s = (inr height, s1) -> attempt fn u s = fn u s1.
Proof. intros Hp. unfold attempt, bind. now rewrite Hp. Qed.

Lemma allThrow_probes_attempts {T} (fn : Url -> M W T) urls s last s' last' :
  allThrow getBlockNumber urls s last s' last' ->
  allThrow (attempt fn) urls s last s' last'.
Proof.
  induction 1 as [|u rest s e s1 last s' last' Hp _ IH]; econstructor; eauto.
  now apply attempt_probe_throws.
Qed.

(** A prefix of failing endpoints is skipped; the scan resumes after it
    with the last error of the prefix. *)
Lemma scanProviders_skip {T} generic (fn : Url -> M W T) pre rest s last s' last' :
  allThrow (attempt fn) pre s last s' last' ->
  scanProviders generic fn (pre ++ rest) last s
  = scanProviders generic fn rest last' s'.
Proof.
  induction 1 as [|u pre s e s1 last s' last' Hrun _ IH]; [reflexivity|].
  cbn [app scanProviders]. unfold tryCatch at 1. rewrite Hrun. exact IH.
Qed.

Lemma scanProviders_answer {T} generic (fn : Url -> M W T) u rest last s v s' :
  attempt fn u s = (inr v, s') ->
  scanProviders generic fn (u :: rest) last s = (inr v, s').
Proof. intros Hrun. cbn [scanProviders]. unfold tryCatch. now rewrite Hrun. Qed.

Lemma scanProviders_last_throws {T} generic (fn : Url -> M W T) u last s e s' :
  attempt fn u s = (inl e, s') ->
  scanProviders generic fn [u] last s = (inl e, s').
Proof. intros Hrun. cbn [scanProviders]. unfold tryCatch. now rewrite Hrun. Qed.

(** C7. Provider failover: when the first N-1 endpoints of the list fail
    their liveness probe and the Nth answers the probe and the read, the
    operation returns the Nth endpoint's result; when every endpoint fails
    (its probe or its read throws), the operation throws the last error
    observed, the one of the Nth endpoint; over an empty list it throws
    the generic all-providers-failed error. *)
Theorem withAnyProvider_failover {T} (generic : string) (fn : Url -> M W T) :
  (forall pre u s s1 last height s2 v s3,
      allThrow getBlockNumber pre s None s1 last ->
      getBlockNumber u s1 = (inr height, s2) ->
      fn u s2 = (inr v, s3) ->
      withAnyProviderOver generic (pre ++ [u]) fn s = (inr v, s3))
  /\ (forall pre u s s1 last e s2,
      allThrow (attempt fn) pre s None s1 last ->
      attempt fn u s1 = (inl e, s2) ->
      withAnyProviderOver generic (pre ++ [u]) fn s = (inl e, s2))
  /\ (forall s, withAnyProviderOver generic [] fn s = (inl (JsError generic), s)).
Proof.
  unfold withAnyProviderOver. split; [|split].
  - intros pre u s s1 last height s2 v s3 Hpre Hprobe Hfn.
    rewrite (scanProviders_skip generic fn pre [u] s None s1 last).
    + apply scanProviders_answer.
      rewrite (attempt_probe_answers fn u s1 height s2 Hprobe). exact Hfn.
    + now apply allThrow_probes_attempts.
  - intros pre u s s1 last e s2 Hpre Hrun.
    rewrite (scanProviders_skip generic fn pre [u] s None s1 last Hpre).
    now apply scanProviders_last_throws.
  - reflexivity.
Qed.

End FailoverFacts.

(** ** The payment sum *)

Lemma allAscii_complete (a : ascii) : In a allAscii.
Proof.
  unfold allAscii. rewrite <- (ascii_nat_embedding a).
  apply List.in_map, List.in_seq.
  pose proof (nat_ascii_bounded a). lia.
Qed.

Lemma sameLetter_table :
  forallb (fun a =>
    forallb (fun b =>
      Bool.eqb (sameLetter a b) (lowerAscii a =? lowerAscii b)%char) allAscii)
    allAscii = true.
Proof. vm_compute. reflexivity. Qed.

Lemma sameLetter_lower (a b : ascii) :
  sameLetter a b = (lowerAscii a =? lowerAscii b)%char.
Proof.
  pose proof sameLetter_table as Ht.
  rewrite List.forallb_forall in Ht.
  specialize (Ht a (allAscii_complete a)).
  rewrite List.forallb_forall in Ht.
  specialize (Ht b (allAscii_complete b)).
  now apply Bool.eqb_prop in Ht.
Qed.

Lemma equalIgnoringCase_lower (s t : string) :
  equalIgnoringCase s t = (toLowerCase s =? toLowerCase t)%string.
Proof.
  revert t. induction s as [|a s IH]; intros [|b t]; cbn; try reflexivity.
  rewrite sameLetter_lower, IH. reflexivity.
Qed.

Section PaymentFacts.
Context `{Ethers}.

Lemma transfer_only_name topics data d :
  parseLog [TransferEvent] topics data = ParseOk d ->
  (ld_name d =? "Transfer")%string = true.
Proof.
  intros Hp. apply parseLog_name in Hp. cbn in Hp.
  destruct Hp as [<-|[]]. reflexivity.
Qed.

(** One iteration adds the qualifying amount of the log, if any. *)
Lemma addPayment_qualifying (total : Z) (log : Log) :
  addPayment total log
  = match qualifyingAmount log with
    | Some amount => total + amount
    | None => total
    end.
Proof.
  unfold addPayment, qualifyingAmount.
  rewrite equalIgnoringCase_lower.
  destruct (log_address log) as [|a addr] eqn:Haddr; [reflexivity|].
  cbn [nonEmpty negb].
  destruct (toLowerCase (String a addr) =? toLowerCase USDC_BASE)%string;
    [|reflexivity].
  cbn [negb].
  destruct (parseLog [TransferEvent] (log_topics log) (log_data log))
    as [e| |d] eqn:Hp; try reflexivity.
  rewrite (transfer_only_name _ _ _ Hp).
  destruct (ld_to d) as [e|[to|]]; try reflexivity.
  - destruct (ld_value d) as [e|value]; [reflexivity|].
    rewrite equalIgnoringCase_lower. cbn [StringOf].
    destruct (toLowerCase to =? toLowerCase PAYMENT_ADDRESS)%string; reflexivity.
  - destruct (ld_value d) as [e|value]; reflexivity.
Qed.

Lemma fold_addPayment (logs : list Log) (total : Z) :
  fold_left addPayment logs total = total + qualifyingSum logs.
Proof.
  revert total. induction logs as [|log rest IH]; intros total; cbn.
  - lia.
  - rewrite IH, addPayment_qualifying.
    destruct (qualifyingAmount log); lia.
Qed.

Lemma getPaidAmountFromLogs_qualifying (logs : list Log) :
  getPaidAmountFromLogs logs = qualifyingSum logs.
Proof. unfold getPaidAmountFromLogs. now rewrite fold_addPayment. Qed.

Lemma qualifyingSum_app (l1 l2 : list Log) :
  qualifyingSum (l1 ++ l2) = qualifyingSum l1 + qualifyingSum l2.
Proof.
  induction l1 as [|log rest IH]; cbn; [reflexivity|].
  rewrite IH. destruct (qualifyingAmount log); lia.
Qed.

End PaymentFacts.

Lemma addPayment_sender (E1 E2 : Ethers) :
  (forall topics data,
      sameButSender (@parseLog E1 [TransferEvent] topics data)
                    (@parseLog E2 [TransferEvent] topics data)) ->
  forall total log, @addPayment E1 total log = @addPayment E2 total log.
Proof.
  intros Hsame total log. unfold addPayment.
  specialize (Hsame (log_topics log) (log_data log)).
  destruct (@parseLog E1 _ _ _) as [e1| |d1], (@parseLog E2 _ _ _) as [e2| |d2];
    cbn in Hsame; try contradiction; try reflexivity.
  destruct Hsame as (_ & -> & ->). reflexivity.
Qed.

(** C3. The paid amount is the sum of the amounts of exactly the logs that
    are emitted by the stablecoin contract (case-insensitive match) and
    decode as a Transfer whose recipient is the payment address
    (case-insensitive match); a log failing either condition contributes
    nothing wherever it stands in the list; and the sender a log reports
    contributes nothing: decoders that differ only in the sender give the
    same amount. *)
Theorem paid_amount_is_qualifying_sum (E : Ethers) (logs : list Log) :
  @getPaidAmountFromLogs E logs = @qualifyingSum E logs
  /\ (forall before log after,
        @qualifyingAmount E log = None ->
        @getPaidAmountFromLogs E (before ++ log :: after)
        = @getPaidAmountFromLogs E (before ++ after))
  /\ (forall E' : Ethers,
        (forall topics data,
            sameButSender (@parseLog E [TransferEvent] topics data)
                          (@parseLog E' [TransferEvent] topics data)) ->
        @getPaidAmountFromLogs E' logs = @getPaidAmountFromLogs E logs).
Proof.
  split; [apply getPaidAmountFromLogs_qualifying|split].
  - intros before log after Hnone.
    rewrite !getPaidAmountFromLogs_qualifying, !qualifyingSum_app.
    cbn [qualifyingSum]. now rewrite Hnone.
  - intros E' Hsame. unfold getPaidAmountFromLogs.
    generalize 0 as total. induction logs as [|log rest IH]; intros total.
    + reflexivity.
    + cbn [fold_left].
      rewrite <- (addPayment_sender E E' Hsame total log). apply IH.
Qed.

(** ** The payment verifier *)

Section VerifyFacts.
Context {W : Type} `{Rpc W} `{Ethers}.

Lemma perform_trace {A} (c : Call) (f : W -> (Exn + A) * W) (s : St W) :
  trace (snd (perform c f s)) = (trace s ++ [c])%list.
Proof. unfold perform. destruct (f (world s)). reflexivity. Qed.

(** The network check issues liveness probes and network queries only. *)
Lemma network_scan_calls generic urls last (s : St W) r s' :
  scanProviders generic getNetwork urls last s = (r, s') ->
  exists calls,
    trace s' = (trace s ++ calls)%list /\ forallb isProbeOrNetwork calls = true.
Proof.
  revert last s. induction urls as [|u rest IH]; intros last s Hscan.
  - cbn in Hscan. injection Hscan as _ <-. exists []. now rewrite app_nil_r.
  - cbn [scanProviders] in Hscan. unfold tryCatch, attempt, bind in Hscan.
    pose proof (perform_trace (CallBlockNumber u) (rpc_getBlockNumber u) s) as Hp.
    fold (getBlockNumber u) in Hp.
    destruct (getBlockNumber u s) as [[e|height] s1]; cbn [snd] in Hp.
    + apply IH in Hscan as (calls & Ht & Hc).
      exists (CallBlockNumber u :: calls). split; [|exact Hc].
      rewrite Ht, Hp, <- app_assoc. reflexivity.
    + pose proof (perform_trace (CallNetwork u) (rpc_getNetwork u) s1) as Hn.
      fold (getNetwork u) in Hn.
      destruct (getNetwork u s1) as [[e|cid] s2]; cbn [snd] in Hn.
      * apply IH in Hscan as (calls & Ht & Hc).
        exists (CallBlockNumber u :: CallNetwork u :: calls). split; [|exact Hc].
        rewrite Ht, Hn, Hp, <- !app_assoc. reflexivity.
      * injection Hscan as _ <-.
        exists [CallBlockNumber u; CallNetwork u]. split; [|reflexivity].
        rewrite Hn, Hp, <- app_assoc. reflexivity.
Qed.

(** C4. When the network identifier obtained from the pool is not 8453,
    [verify] returns FAILED whatever the chain holds, and it stops in the
    state the network check left: the calls of the whole verification are
    the liveness probes and network queries of that check, and no receipt,
    transaction or log query follows.  Both verify routes behave so. *)
Theorem wrong_network_fails_fast (txHash : jsstr) (s s1 : St W) (chainId : Z) :
  VerifyPayment.withAnyProvider getNetwork s = (inr chainId, s1) ->
  chainId <> BASE_CHAIN_ID ->
  let failed :=
    mkPayment false FAILED None "Wrong network. Payment must be on Base." in
  VerifyPayment.verify txHash s = (inr failed, s1)
  /\ VerifyPaymentConf.verify txHash s = (inr failed, s1)
  /\ exists calls,
       trace s1 = (trace s ++ calls)%list /\ forallb isProbeOrNetwork calls = true.
Proof.
  intros Hnet Hne failed.
  assert (Hneq : (chainId =? BASE_CHAIN_ID) = false) by now apply Z.eqb_neq.
  repeat split.
  - unfold VerifyPayment.verify, bind. rewrite Hnet, Hneq. reflexivity.
  - unfold VerifyPaymentConf.verify, bind.
    change (@VerifyPaymentConf.withAnyProvider W _ Z)
      with (@VerifyPayment.withAnyProvider W _ Z).
    rewrite Hnet, Hneq. reflexivity.
  - exact (network_scan_calls _ _ _ _ _ _ Hnet).
Qed.

(** C2. On the accepted network, for a receipt obtained with a successful
    status: when the qualifying transfers sum to exactly 3000000 units,
    [verify] returns CONFIRMED (with that sum); when they sum to exactly
    one unit less, it returns PENDING with the insufficient sum attached. *)
Theorem exact_price_confirms (txHash : jsstr) (s s1 s2 : St W)
    (receipt : TransactionReceipt) :
  VerifyPayment.withAnyProvider getNetwork s = (inr BASE_CHAIN_ID, s1) ->
  VerifyPayment.withAnyProvider (getTransactionReceipt txHash) s1
  = (inr (Some receipt), s2) ->
  rc_status receipt = Some 1 ->
  (qualifyingSum (rc_logs receipt) = 3000000 ->
   VerifyPayment.verify txHash s
   = (inr (mkPayment true CONFIRMED (Some 3000000) "Payment confirmed."), s2))
  /\ (qualifyingSum (rc_logs receipt) = 3000000 - 1 ->
      VerifyPayment.verify txHash s
      = (inr (mkPayment true PENDING (Some 2999999)
                "Transaction found, but payment not detected yet."), s2)).
Proof.
  intros Hnet Hrc Hstatus.
  assert (Hverify : VerifyPayment.verify txHash s
    = (let paid := qualifyingSum (rc_logs receipt) in
       if PRICE_USDC_UNITS <=? paid
       then (inr (mkPayment true CONFIRMED (Some paid) "Payment confirmed."), s2)
       else (inr (mkPayment true PENDING (Some paid)
                    "Transaction found, but payment not detected yet."), s2))).
  { unfold VerifyPayment.verify, bind, tryCatch.
    rewrite Hnet, Z.eqb_refl. cbn [negb]. rewrite Hrc.
    unfold statusIsOne. rewrite Hstatus. cbn [Z.eqb Pos.eqb negb].
    rewrite getPaidAmountFromLogs_qualifying. cbv zeta.
    destruct (PRICE_USDC_UNITS <=? qualifyingSum (rc_logs receipt)); reflexivity. }
  split; intros Hsum; rewrite Hverify, Hsum; reflexivity.
Qed.

(** The same threshold in the route with [MIN_CONFIRMATIONS], once the
    depth is sufficient. *)
Lemma exact_price_confirms_conf (txHash : jsstr) (s s1 s2 s3 : St W)
    (receipt : TransactionReceipt) (latestBlock : Z) :
  VerifyPaymentConf.withAnyProvider getNetwork s = (inr BASE_CHAIN_ID, s1) ->
  VerifyPaymentConf.withAnyProvider (getTransactionReceipt txHash) s1
  = (inr (Some receipt), s2) ->
  rc_status receipt = Some 1 ->
  VerifyPaymentConf.withAnyProvider getBlockNumber s2 = (inr latestBlock, s3) ->
  MIN_CONFIRMATIONS <= latestBlock - rc_blockNumber receipt + 1 ->
  VerifyPaymentConf.verify txHash s
  = (inr (let paid := qualifyingSum (rc_logs receipt) in
          if PRICE_USDC_UNITS <=? paid
          then mkPayment true CONFIRMED (Some paid) "Payment confirmed."
          else mkPayment true PENDING (Some paid)
                 "Transaction found, but payment not detected yet."),
     s3).
Proof.
  intros Hnet Hrc Hstatus Hheight Hdepth.
  unfold VerifyPaymentConf.verify, bind, tryCatch.
  rewrite Hnet, Z.eqb_refl. cbn [negb]. rewrite Hrc.
  unfold statusIsOne. rewrite Hstatus. cbn [Z.eqb Pos.eqb negb].
  rewrite Hheight.
  apply Z.ltb_ge in Hdepth. rewrite Hdepth.
  rewrite getPaidAmountFromLogs_qualifying. cbv zeta.
  destruct (PRICE_USDC_UNITS <=? qualifyingSum (rc_logs receipt)); reflexivity.
Qed.

(** C6, amended.  In the route that configures [MIN_CONFIRMATIONS]: on the
    accepted network, for a receipt obtained with a successful status, when
    the pool answers the height query and the confirmation depth
    (current height - inclusion height + 1) is below the minimum, [verify]
    returns PENDING although the receipt exists. *)
Theorem shallow_receipt_is_pending (txHash : jsstr) (s s1 s2 s3 : St W)
    (receipt : TransactionReceipt) (latestBlock : Z) :
  VerifyPaymentConf.withAnyProvider getNetwork s = (inr BASE_CHAIN_ID, s1) ->
  VerifyPaymentConf.withAnyProvider (getTransactionReceipt txHash) s1
  = (inr (Some receipt), s2) ->
  rc_status receipt = Some 1 ->
  VerifyPaymentConf.withAnyProvider getBlockNumber s2 = (inr latestBlock, s3) ->
  latestBlock - rc_blockNumber receipt + 1 < MIN_CONFIRMATIONS ->
  VerifyPaymentConf.verify txHash s
  = (inr (mkPayment true PENDING None "Waiting for confirmations."), s3).
Proof.
  intros Hnet Hrc Hstatus Hheight Hdepth.
  unfold VerifyPaymentConf.verify, bind, tryCatch.
  rewrite Hnet, Z.eqb_refl. cbn [negb]. rewrite Hrc.
  unfold statusIsOne. rewrite Hstatus. cbn [Z.eqb Pos.eqb negb].
  rewrite Hheight.
  apply Z.ltb_lt in Hdepth. rewrite Hdepth. reflexivity.
Qed.

(** The route of src/app/api/verify-payment/route.ts asks for no height:
    a successful receipt is decided by the paid amount, in the state the
    receipt query left. *)
Lemma plain_route_decides_by_amount (txHash : jsstr) (s s1 s2 : St W)
    (receipt : TransactionReceipt) :
  VerifyPayment.withAnyProvider getNetwork s = (inr BASE_CHAIN_ID, s1) ->
  VerifyPayment.withAnyProvider (getTransactionReceipt txHash) s1
  = (inr (Some receipt), s2) ->
  rc_status receipt = Some 1 ->
  VerifyPayment.verify txHash s
  = (inr (let paid := qualifyingSum (rc_logs receipt) in
          if PRICE_USDC_UNITS <=? paid
          then mkPayment true CONFIRMED (Some paid) "Payment confirmed."
          else mkPayment true PENDING (Some paid)
                 "Transaction found, but payment not detected yet."),
     s2).
Proof.
  intros Hnet Hrc Hstatus.
  unfold VerifyPayment.verify, bind, tryCatch.
  rewrite Hnet, Z.eqb_refl. cbn [negb]. rewrite Hrc.
  unfold statusIsOne. rewrite Hstatus. cbn [Z.eqb Pos.eqb negb].
  rewrite getPaidAmountFromLogs_qualifying. cbv zeta.
  destruct (PRICE_USDC_UNITS <=? qualifyingSum (rc_logs receipt)); reflexivity.
Qed.

End VerifyFacts.

(** ** Input validation *)

Lemma isTxHash_truthy (x : jsstr) : isTxHash x = true -> truthy x = true.
Proof. destruct x; [discriminate|reflexivity]. Qed.

Lemma guard_rejects (tx : jsstr) :
  isTxHash tx = false -> negb (truthy tx) || negb (isTxHash tx) = true.
Proof. intros ->. apply orb_true_r. Qed.

Lemma guard_accepts (tx : jsstr) :
  isTxHash tx = true -> negb (truthy tx) || negb (isTxHash tx) = false.
Proof. intros Hv. now rewrite Hv, (isTxHash_truthy tx Hv). Qed.

Section ValidationFacts.
Context {W : Type} `{Rpc W} `{Ethers}.

(** C5, amended.  When the [tx] parameter, trimmed of surrounding white
    space, is not a 0x-prefixed hash of 64 hexadecimal digits, both explain
    routes return the placeholder with the unlock flag false; when the
    trimmed [payTx] parameter is not one, both verify routes answer 400
    with status FAILED.  In each case the state is the one the handler
    started in: no network call was made. *)
Theorem malformed_hash_rejected (req : Request) (s : St W) :
  (isTxHash (txParam req) = false ->
   (exists resp,
       Explain.GET req s = (inr resp, s)
       /\ summary resp = "Paste a transaction hash"
       /\ accessUnlocked resp = false)
   /\ (exists resp,
       ExplainPaid.GET req s = (inr resp, s)
       /\ summary resp = "Paste a transaction hash"
       /\ accessUnlocked resp = false))
  /\ (isTxHash (payTxParam req) = false ->
      let rejected := mkHttp 400 (mkPayment false FAILED None "Invalid tx hash.") in
      VerifyPayment.GET req s = (inr rejected, s)
      /\ VerifyPaymentConf.GET req s = (inr rejected, s)).
Proof.
  split.
  - intros Hbad. split; eexists.
    + unfold Explain.GET. fold (txParam req).
      rewrite (guard_rejects _ Hbad). cbn. repeat split.
    + unfold ExplainPaid.GET, ExplainPaid.GET_with. fold (txParam req).
      rewrite (guard_rejects _ Hbad). cbn. repeat split.
  - intros Hbad rejected. split.
    + unfold VerifyPayment.GET. fold (payTxParam req). now rewrite Hbad.
    + unfold VerifyPaymentConf.GET. fold (payTxParam req). now rewrite Hbad.
Qed.

End ValidationFacts.

(** ** The unlock flag *)

Section UnlockFacts.
Context {W : Type} `{Rpc W} `{Ethers}.

Lemma isPaymentConfirmed_returns (payTx : jsstr) (s : St W) :
  exists b s1, ExplainPaid.isPaymentConfirmed payTx s = (inr b, s1).
Proof.
  unfold ExplainPaid.isPaymentConfirmed, bind, tryCatch, ret.
  destruct (isTxHash payTx); cbn [negb]; [|eauto].
  destruct (ExplainPaid.withAnyProvider (getTransactionReceipt payTx) s)
    as [[e|[receipt|]] s1]; eauto.
  destruct (statusIsOne receipt); cbn [negb]; eauto.
Qed.

(** Step 2 always yields a flag: the verdict of the check when a payment
    reference is given, false otherwise. *)
Lemma decideUnlock_value (check : jsstr -> M W bool) (payTx : jsstr) (s : St W) :
  ExplainPaid.decideUnlock check payTx s
  = (inr (if truthy payTx then verdictOf (check payTx s) else false),
     if truthy payTx then snd (check payTx s) else s).
Proof.
  unfold ExplainPaid.decideUnlock, tryCatch, ret, verdictOf.
  destruct (truthy payTx); [|reflexivity].
  destruct (check payTx s) as [[e|b] s1]; reflexivity.
Qed.

(** Past validation, the response of [GET] carries the flag of step 2
    whatever the analysis of the target transaction gives. *)
Lemma GET_with_flag (check : jsstr -> M W bool) (req : Request) (s : St W) :
  isTxHash (txParam req) = true ->
  exists resp s',
    ExplainPaid.GET_with check req s = (inr resp, s')
    /\ accessUnlocked resp
       = (if truthy (payTxParam req)
          then verdictOf (check (payTxParam req) s) else false).
Proof.
  intros Hv. unfold ExplainPaid.GET_with.
  fold (txParam req). fold (payTxParam req).
  rewrite (guard_accepts _ Hv). unfold bind at 1.
  rewrite decideUnlock_value.
  set (flag := if truthy (payTxParam req) then _ else false).
  set (s0 := if truthy (payTxParam req) then _ else s).
  unfold tryCatch, bind, ret, liftE.
  destruct (ExplainPaid.withAnyProvider (getTransaction (txParam req)) s0)
    as [[e|transaction] s1]; [eauto|].
  destruct (ExplainPaid.withAnyProvider (getTransactionReceipt (txParam req)) s1)
    as [[e|receipt] s2]; [eauto|].
  destruct transaction as [transaction|]; [|eauto].
  destruct (normalise (tx_from transaction)) as [e|from]; [eauto|].
  destruct (normalise (tx_to transaction)) as [e|to]; eauto.
Qed.

Lemma GET_with_flagOf (check : jsstr -> M W bool) (req : Request) (s : St W) :
  flagOf (ExplainPaid.GET_with check req s)
  = Some (if isTxHash (txParam req)
          then if truthy (payTxParam req)
               then verdictOf (check (payTxParam req) s) else false
          else false).
Proof.
  destruct (isTxHash (txParam req)) eqn:Hv.
  - destruct (GET_with_flag check req s Hv) as (resp & s' & Hget & Hflag).
    unfold flagOf. rewrite Hget. cbn. now rewrite Hflag.
  - unfold ExplainPaid.GET_with. fold (txParam req).
    rewrite (guard_rejects _ Hv). reflexivity.
Qed.

Lemma GET_with_returns (check : jsstr -> M W bool) (req : Request) (s : St W) :
  exists resp s', ExplainPaid.GET_with check req s = (inr resp, s').
Proof.
  destruct (isTxHash (txParam req)) eqn:Hv.
  - destruct (GET_with_flag check req s Hv) as (resp & s' & Hget & _). eauto.
  - unfold ExplainPaid.GET_with. fold (txParam req).
    rewrite (guard_rejects _ Hv). unfold ret. eauto.
Qed.

Lemma statusIsOne_true (receipt : TransactionReceipt) :
  statusIsOne receipt = true <-> rc_status receipt = Some 1.
Proof.
  unfold statusIsOne. destruct (rc_status receipt) as [st|]; [|easy].
  rewrite Z.eqb_eq. split; congruence.
Qed.

(** What the lightweight check answers: true exactly for a well-formed
    reference whose receipt the pool delivers with status 1 and whose
    qualifying transfers reach the price. *)
Lemma isPaymentConfirmed_verdict (payTx : jsstr) (s : St W) :
  verdictOf (ExplainPaid.isPaymentConfirmed payTx s) = true
  <-> isTxHash payTx = true
      /\ exists receipt s1,
           ExplainPaid.withAnyProvider (getTransactionReceipt payTx) s
           = (inr (Some receipt), s1)
           /\ rc_status receipt = Some 1
           /\ PRICE_USDC_UNITS <= qualifyingSum (rc_logs receipt).
Proof.
  unfold verdictOf, ExplainPaid.isPaymentConfirmed, bind, tryCatch, ret.
  destruct (isTxHash payTx); cbn [negb fst]; [|split; [discriminate|now intros [? _]]].
  destruct (ExplainPaid.withAnyProvider (getTransactionReceipt payTx) s)
    as [[e|[receipt|]] s1]; cbn [fst].
  - split; [discriminate|]. now intros (_ & r & s' & [=] & _).
  - destruct (statusIsOne receipt) eqn:Hst; cbn [negb fst].
    + rewrite fold_addPayment, Z.add_0_l, Z.leb_le. split.
      * intros Hle. split; [reflexivity|]. exists receipt, s1.
        now rewrite <- statusIsOne_true.
      * now intros (_ & r & s' & [= <- <-] & _ & Hle).
    + split; [discriminate|]. intros (_ & r & s' & [= <- <-] & Hone & _).
      apply statusIsOne_true in Hone. congruence.
  - split; [discriminate|]. now intros (_ & r & s' & [=] & _).
Qed.

(** C1, amended.  In the explain route that consults [payTx] the route
    always answers; the flag is false when the target hash is rejected and
    when no payment reference is supplied, and otherwise it is the verdict
    of [isPaymentConfirmed] on the payment reference in the state the
    request arrived in (false when the check throws); that verdict is true
    exactly for a well-formed reference whose receipt is delivered with
    status 1 and whose qualifying transfers reach the price; requests that
    agree on the payment reference and on whether the target hash is well
    formed get the same flag. *)
Theorem unlock_flag_source :
  (forall (req : Request) (s : St W),
      exists resp s',
        ExplainPaid.GET req s = (inr resp, s')
        /\ accessUnlocked resp
           = (if isTxHash (txParam req)
              then if truthy (payTxParam req)
                   then verdictOf (ExplainPaid.isPaymentConfirmed (payTxParam req) s)
                   else false
              else false))
  /\ (forall (req : Request) (s : St W),
         searchParams_get req (lit "payTx") = None ->
         flagOf (ExplainPaid.GET req s) = Some false)
  /\ (forall (req1 req2 : Request) (s : St W),
         payTxParam req1 = payTxParam req2 ->
         isTxHash (txParam req1) = isTxHash (txParam req2) ->
         flagOf (ExplainPaid.GET req1 s) = flagOf (ExplainPaid.GET req2 s))
  /\ (forall (payTx : jsstr) (s : St W),
         verdictOf (ExplainPaid.isPaymentConfirmed payTx s) = true
         <-> isTxHash payTx = true
             /\ exists receipt s1,
                  ExplainPaid.withAnyProvider (getTransactionReceipt payTx) s
                  = (inr (Some receipt), s1)
                  /\ rc_status receipt = Some 1
                  /\ PRICE_USDC_UNITS <= qualifyingSum (rc_logs receipt)).
Proof.
  split; [|split; [|split]].
  - intros req s. unfold ExplainPaid.GET.
    destruct (GET_with_returns ExplainPaid.isPaymentConfirmed req s)
      as (resp & s' & Hget).
    exists resp, s'. split; [exact Hget|].
    pose proof (GET_with_flagOf ExplainPaid.isPaymentConfirmed req s) as Hf.
    unfold flagOf in Hf. rewrite Hget in Hf. cbn in Hf. now injection Hf.
  - intros req s Hnone. unfold ExplainPaid.GET. rewrite GET_with_flagOf.
    unfold payTxParam. rewrite Hnone. cbn.
    now destruct (isTxHash (txParam req)).
  - intros req1 req2 s Hpay Htx. unfold ExplainPaid.GET.
    rewrite !GET_with_flagOf, Hpay, Htx. reflexivity.
  - exact isPaymentConfirmed_verdict.
Qed.

(** C10, amended.  Errors while verifying the payment, in the explain
    route that consults [payTx], for a well-formed target hash and a
    supplied payment reference: when every provider fails on the receipt, when the receipt
    is missing, when the check itself throws, and when no log of the
    receipt decodes, the unlock flag is false.  A single log whose decoding
    throws is skipped: the paid sum is the one of the list without it. *)
Theorem payment_errors_keep_locked (req : Request) (s : St W) :
  isTxHash (txParam req) = true ->
  truthy (payTxParam req) = true ->
  (forall e s1,
      ExplainPaid.withAnyProvider (getTransactionReceipt (payTxParam req)) s
      = (inl e, s1) ->
      flagOf (ExplainPaid.GET req s) = Some false)
  /\ (forall s1,
      ExplainPaid.withAnyProvider (getTransactionReceipt (payTxParam req)) s
      = (inr None, s1) ->
      flagOf (ExplainPaid.GET req s) = Some false)
  /\ (forall (check : jsstr -> M W bool) e s1,
      check (payTxParam req) s = (inl e, s1) ->
      flagOf (ExplainPaid.GET_with check req s) = Some false)
  /\ (forall receipt s1,
      ExplainPaid.withAnyProvider (getTransactionReceipt (payTxParam req)) s
      = (inr (Some receipt), s1) ->
      Forall (fun log => exists e,
                parseLog [TransferEvent] (log_topics log) (log_data log)
                = ParseThrew e) (rc_logs receipt) ->
      flagOf (ExplainPaid.GET req s) = Some false)
  /\ (forall before log after e,
      parseLog [TransferEvent] (log_topics log) (log_data log) = ParseThrew e ->
      fold_left addPayment (before ++ log :: after)%list 0
      = fold_left addPayment (before ++ after)%list 0).
Proof.
  intros Hv Hpay.
  assert (Hflag : forall check,
             flagOf (ExplainPaid.GET_with check req s)
             = Some (verdictOf (check (payTxParam req) s))).
  { intros check. now rewrite GET_with_flagOf, Hv, Hpay. }
  assert (Hthrew : forall log e,
             parseLog [TransferEvent] (log_topics log) (log_data log) = ParseThrew e ->
             qualifyingAmount log = None).
  { intros log e Hp. unfold qualifyingAmount. rewrite Hp.
    now destruct (equalIgnoringCase _ _). }
  repeat split.
  - intros e s1 Hrc. unfold ExplainPaid.GET. rewrite Hflag. f_equal.
    unfold verdictOf, ExplainPaid.isPaymentConfirmed, bind, tryCatch, ret.
    destruct (isTxHash (payTxParam req)); cbn [negb]; [|reflexivity].
    now rewrite Hrc.
  - intros s1 Hrc. unfold ExplainPaid.GET. rewrite Hflag. f_equal.
    unfold verdictOf, ExplainPaid.isPaymentConfirmed, bind, tryCatch, ret.
    destruct (isTxHash (payTxParam req)); cbn [negb]; [|reflexivity].
    now rewrite Hrc.
  - intros check e s1 Hcheck. rewrite Hflag. f_equal.
    unfold verdictOf. now rewrite Hcheck.
  - intros receipt s1 Hrc Hall. unfold ExplainPaid.GET. rewrite Hflag. f_equal.
    unfold verdictOf, ExplainPaid.isPaymentConfirmed, bind, tryCatch, ret.
    destruct (isTxHash (payTxParam req)); cbn [negb]; [|reflexivity].
    rewrite Hrc. destruct (statusIsOne receipt); cbn [negb fst]; [|reflexivity].
    rewrite fold_addPayment.
    assert (Hzero : qualifyingSum (rc_logs receipt) = 0).
    { induction Hall as [|log rest [e Hp] _ IH]; [reflexivity|].
      cbn [qualifyingSum]. now rewrite (Hthrew log e Hp). }
    rewrite Hzero. reflexivity.
  - intros before log after e Hp.
    rewrite !fold_addPayment, !qualifyingSum_app. cbn [qualifyingSum].
    now rewrite (Hthrew log e Hp).
Qed.

End UnlockFacts.

(** ** The log classifier *)

Section ClassifierFacts.
Context `{Ethers}.

Lemma emitters_cons (log : Log) (rest : list Log) :
  emitters (log :: rest)
  = if nonEmpty (log_address log)
    then {[ toLowerCase (log_address log) ]} ∪ emitters rest
    else emitters rest.
Proof. unfold emitters. cbn. now destruct (nonEmpty (log_address log)). Qed.

Lemma countDecoded_cons (name : string) (log : Log) (rest : list Log) :
  countDecoded name (log :: rest)
  = ((if decodesAs name log then 1 else 0) + countDecoded name rest)%nat.
Proof. unfold countDecoded. cbn. now destruct (decodesAs name log). Qed.

(** One iteration: the address is recorded whatever the decoding gives;
    the counters move only for a decoded Transfer or Approval. *)
Lemma classifyLog_step (m : Metrics) (log : Log) :
  classifyLog m log
  = mkMetrics
      (if nonEmpty (log_address log)
       then {[ toLowerCase (log_address log) ]} ∪ touchedContracts m
       else touchedContracts m)
      ((if decodesAs "Transfer" log then 1 else 0) + tokenTransfers m)
      ((if decodesAs "Approval" log then 1 else 0) + approvals m).
Proof.
  unfold classifyLog, decodesAs.
  destruct (parseLog _ _ _) as [e| |d]; try reflexivity.
  destruct (ld_name d =? "Transfer")%string, (ld_name d =? "Approval")%string;
    reflexivity.
Qed.

Lemma fold_classifyLog (logs : list Log) (m : Metrics) :
  fold_left classifyLog logs m
  = mkMetrics (touchedContracts m ∪ emitters logs)
      (tokenTransfers m + countDecoded "Transfer" logs)
      (approvals m + countDecoded "Approval" logs).
Proof.
  revert m. induction logs as [|log rest IH]; intros [touched transfers approved].
  - cbn [fold_left touchedContracts tokenTransfers approvals].
    change (emitters []) with (∅ : gset string).
    unfold countDecoded. cbn [List.filter length].
    now rewrite union_empty_r_L, !Nat.add_0_r.
  - cbn [fold_left]. rewrite IH, classifyLog_step, emitters_cons, !countDecoded_cons.
    cbn [touchedContracts tokenTransfers approvals].
    rewrite !Nat.add_assoc.
    rewrite (Nat.add_comm transfers), (Nat.add_comm approved).
    f_equal.
    destruct (nonEmpty (log_address log)); [|reflexivity].
    now rewrite (comm_L (∪) _ touched), <- (assoc_L (∪)).
Qed.

Lemma decodesAs_exclusive (log : Log) :
  decodesAs "Approval" log = true -> decodesAs "Transfer" log = false.
Proof.
  unfold decodesAs. destruct (parseLog _ _ _) as [e| |d]; try discriminate.
  intros Hname. apply String.eqb_eq in Hname. now rewrite Hname.
Qed.

Lemma decodesAs_exclusive' (log : Log) :
  decodesAs "Transfer" log = true -> decodesAs "Approval" log = false.
Proof.
  unfold decodesAs. destruct (parseLog _ _ _) as [e| |d]; try discriminate.
  intros Hname. apply String.eqb_eq in Hname. now rewrite Hname.
Qed.

(** C9. The classifier records the lower-cased emitting address of every
    log whatever its decoding gives, counts the logs decoded as Transfer
    and as Approval and skips the others; the risk is Medium when an
    Approval was decoded, else Low–Medium when more than one distinct
    contract was touched, else Low.  A receipt of one Approval log and one
    Transfer log from two distinct contracts gives 2 contracts, 1 token
    transfer, 1 approval and the risk Medium. *)
Theorem classifier_metrics (logs : list Log) :
  let m := classifyLogs logs in
  touchedContracts m = emitters logs
  /\ tokenTransfers m = countDecoded "Transfer" logs
  /\ approvals m = countDecoded "Approval" logs
  /\ ((0 < approvals m)%nat -> riskOf m = Medium)
  /\ (approvals m = 0%nat -> (1 < size (touchedContracts m))%nat ->
      riskOf m = LowMedium)
  /\ (approvals m = 0%nat -> (size (touchedContracts m) <= 1)%nat ->
      riskOf m = Low)
  /\ (forall approval transfer : Log,
         decodesAs "Approval" approval = true ->
         decodesAs "Transfer" transfer = true ->
         nonEmpty (log_address approval) = true ->
         nonEmpty (log_address transfer) = true ->
         toLowerCase (log_address approval) <> toLowerCase (log_address transfer) ->
         let m2 := classifyLogs [approval; transfer] in
         size (touchedContracts m2) = 2%nat
         /\ tokenTransfers m2 = 1%nat
         /\ approvals m2 = 1%nat
         /\ riskOf m2 = Medium).
Proof.
  intros m.
  assert (Hm : m = mkMetrics (emitters logs) (countDecoded "Transfer" logs)
                     (countDecoded "Approval" logs)).
  { subst m. unfold classifyLogs. rewrite fold_classifyLog.
    cbn [touchedContracts tokenTransfers approvals].
    now rewrite union_empty_l_L. }
  split; [now rewrite Hm|]. split; [now rewrite Hm|]. split; [now rewrite Hm|].
  clearbody m. clear Hm.
  split; [|split; [|split]].
  - unfold riskOf. intros Hpos. apply Nat.ltb_lt in Hpos. now rewrite Hpos.
  - unfold riskOf. intros -> Hsize. apply Nat.ltb_lt in Hsize. now rewrite Hsize.
  - unfold riskOf. intros -> Hsize. apply Nat.ltb_ge in Hsize. now rewrite Hsize.
  - intros approval transfer Happroval Htransfer Haddr1 Haddr2 Hdistinct m2.
    subst m2. unfold classifyLogs. rewrite fold_classifyLog.
    unfold riskOf. cbn [touchedContracts tokenTransfers approvals].
    rewrite !emitters_cons, Haddr1, Haddr2, !countDecoded_cons.
    rewrite Happroval, Htransfer.
    rewrite (decodesAs_exclusive _ Happroval), (decodesAs_exclusive' _ Htransfer).
    change (emitters []) with (∅ : gset string).
    rewrite union_empty_l_L, union_empty_r_L.
    rewrite size_union by (apply disjoint_singleton_l, not_elem_of_singleton; exact Hdistinct).
    rewrite !size_singleton. repeat split.
Qed.

End ClassifierFacts.

(** ** The summary of the explain routes *)

Lemma summaryOf_cases (t : TransactionResponse) :
  (summaryOf t = "ETH transfer"
   <-> (exists v, tx_value t = Some v /\ 0 < v) /\ tx_data t = "0x")
  /\ (summaryOf t <> "ETH transfer" -> summaryOf t = "Contract interaction").
Proof.
  unfold summaryOf, isEthTransfer. split.
  - split.
    + intros Hs.
      destruct (Z.ltb 0 _) eqn:Hv; [|discriminate].
      destruct (tx_data t =? "0x")%string eqn:Hd; [|discriminate].
      apply Z.ltb_lt in Hv. apply String.eqb_eq in Hd. split; [|exact Hd].
      destruct (tx_value t) as [v|]; [eauto|lia].
    + intros [(v & -> & Hv) ->]. apply Z.ltb_lt in Hv. now rewrite Hv.
  - destruct (Z.ltb 0 _ && _); [intros Hs; now contradiction Hs|reflexivity].
Qed.

Section SummaryFacts.
Context {W : Type} `{Rpc W} `{Ethers}.

(** C8. For a well-formed target hash whose transaction record and receipt
    the pool both delivers (and whose addresses ethers accepts), both
    explain routes answer with the classification of the transaction: the
    summary is "ETH transfer" exactly when the value is strictly positive
    and the call payload is "0x", and "Contract interaction" otherwise.
    In the route that consults [payTx] this holds for every payment check
    and every payment reference: the summary does not depend on them. *)
Theorem summary_classification (req : Request) (s s1 s2 : St W)
    (t : TransactionResponse) (r : TransactionReceipt) (from to : option string) :
  isTxHash (txParam req) = true ->
  normalise (tx_from t) = inr from ->
  normalise (tx_to t) = inr to ->
  let m := classifyLogs (rc_logs r) in
  let lines := explanationLines from to m (riskOf m) in
  (Explain.withAnyProvider (getTransaction (txParam req)) s = (inr (Some t), s1) ->
   Explain.withAnyProvider (getTransactionReceipt (txParam req)) s1
   = (inr (Some r), s2) ->
   Explain.GET req s
   = (inr (mkExplain (summaryOf t) None lines (basescanUrl (txParam req)) true), s2))
  /\ (forall check : jsstr -> M W bool,
         let s0 := snd (ExplainPaid.decideUnlock check (payTxParam req) s) in
         ExplainPaid.withAnyProvider (getTransaction (txParam req)) s0
         = (inr (Some t), s1) ->
         ExplainPaid.withAnyProvider (getTransactionReceipt (txParam req)) s1
         = (inr (Some r), s2) ->
         exists flag,
           ExplainPaid.GET_with check req s
           = (inr (mkExplain (summaryOf t) (Some (ExplainPaid.feeOf (Some r)))
                     lines (basescanUrl (txParam req)) flag), s2))
  /\ (summaryOf t = "ETH transfer"
      <-> (exists v, tx_value t = Some v /\ 0 < v) /\ tx_data t = "0x")
  /\ (summaryOf t <> "ETH transfer" -> summaryOf t = "Contract interaction").
Proof.
  intros Hv Hfrom Hto m lines. split; [|split; [|apply summaryOf_cases]].
  - intros Htx Hrc. unfold Explain.GET. fold (txParam req).
    rewrite (guard_accepts _ Hv). unfold tryCatch, bind.
    rewrite Htx, Hrc. unfold liftE. now rewrite Hfrom, Hto.
  - intros check s0 Htx Hrc. unfold ExplainPaid.GET_with.
    fold (txParam req). fold (payTxParam req).
    rewrite (guard_accepts _ Hv). unfold bind at 1.
    subst s0. rewrite decideUnlock_value in *. cbn [snd] in *.
    eexists. unfold tryCatch, bind.
    rewrite Htx, Hrc. unfold liftE. rewrite Hfrom, Hto. reflexivity.
Qed.

End SummaryFacts.

(** ** Concrete runs on the static pool *)

(** The first three endpoints fail their probe and the fourth answers:
    the network query returns the fourth endpoint's chain id; with all four
    down, the error thrown is the one of the fourth endpoint. *)
Lemma withAnyProvider_failover_run :
  VerifyPayment.withAnyProvider getNetwork (start (lastAlive baseNode))
  = (inr 8453,
     mkSt (lastAlive baseNode)
       [ CallBlockNumber "https://base.publicnode.com";
         CallBlockNumber "https://mainnet.base.org";
         CallBlockNumber "https://base.llamarpc.com";
         CallBlockNumber "https://1rpc.io/base";
         CallNetwork "https://1rpc.io/base" ])
  /\ VerifyPayment.withAnyProvider getNetwork (start allDown)
     = (inl (RpcFault "https://1rpc.io/base"),
        mkSt allDown
          [ CallBlockNumber "https://base.publicnode.com";
            CallBlockNumber "https://mainnet.base.org";
            CallBlockNumber "https://base.llamarpc.com";
            CallBlockNumber "https://1rpc.io/base" ]).
Proof.
  pose proof (@withAnyProvider_failover Pool staticPool Z
                "All RPC providers failed" getNetwork) as (Hlast & Hnone & _).
  split.
  - apply (Hlast
             [ "https://base.publicnode.com"; "https://mainnet.base.org";
               "https://base.llamarpc.com" ]
             "https://1rpc.io/base" (start (lastAlive baseNode))
             (mkSt (lastAlive baseNode)
                [ CallBlockNumber "https://base.publicnode.com";
                  CallBlockNumber "https://mainnet.base.org";
                  CallBlockNumber "https://base.llamarpc.com" ])
             (Some (RpcFault "https://base.llamarpc.com")) 100
             (mkSt (lastAlive baseNode)
                [ CallBlockNumber "https://base.publicnode.com";
                  CallBlockNumber "https://mainnet.base.org";
                  CallBlockNumber "https://base.llamarpc.com";
                  CallBlockNumber "https://1rpc.io/base" ])).
    + eapply allThrow_cons; [vm_compute; reflexivity|].
      eapply allThrow_cons; [vm_compute; reflexivity|].
      eapply allThrow_cons; [vm_compute; reflexivity|].
      apply allThrow_nil.
    + vm_compute; reflexivity.
    + vm_compute; reflexivity.
  - apply (Hnone
             [ "https://base.publicnode.com"; "https://mainnet.base.org";
               "https://base.llamarpc.com" ]
             "https://1rpc.io/base" (start allDown)
             (mkSt allDown
                [ CallBlockNumber "https://base.publicnode.com";
                  CallBlockNumber "https://mainnet.base.org";
                  CallBlockNumber "https://base.llamarpc.com" ])
             (Some (RpcFault "https://base.llamarpc.com"))).
    + eapply allThrow_cons; [vm_compute; reflexivity|].
      eapply allThrow_cons; [vm_compute; reflexivity|].
      eapply allThrow_cons; [vm_compute; reflexivity|].
      apply allThrow_nil.
    + vm_compute; reflexivity.
Defined.

(** The payment sum on concrete logs: a transfer of another token does
    not qualify and may be dropped, and the decoder that withholds the
    sender gives the same amount. *)
Lemma paid_amount_is_qualifying_sum_run :
  @getPaidAmountFromLogs abiDecoder [wethTransfer; usdcTransfer threeUSDC]
  = @qualifyingSum abiDecoder [wethTransfer; usdcTransfer threeUSDC]
  /\ @getPaidAmountFromLogs abiDecoder
       ([usdcTransfer threeUSDC] ++ wethTransfer :: [usdcTransfer oneUnitShort])%list
     = @getPaidAmountFromLogs abiDecoder
         ([usdcTransfer threeUSDC] ++ [usdcTransfer oneUnitShort])%list
  /\ @getPaidAmountFromLogs senderBlind [wethTransfer; usdcTransfer threeUSDC]
     = @getPaidAmountFromLogs abiDecoder [wethTransfer; usdcTransfer threeUSDC].
Proof.
  split; [|split].
  - exact (proj1 (paid_amount_is_qualifying_sum abiDecoder
                    [wethTransfer; usdcTransfer threeUSDC])).
  - apply (proj1 (proj2 (paid_amount_is_qualifying_sum abiDecoder []))).
    vm_compute; reflexivity.
  - apply (proj2 (proj2 (paid_amount_is_qualifying_sum abiDecoder
                           [wethTransfer; usdcTransfer threeUSDC]))).
    intros topics data. cbn [parseLog senderBlind abiDecoder].
    destruct (abiParseLog [TransferEvent] topics data); cbn; auto.
Defined.

(** On a pool that reports network 1, [verify] fails after five calls. *)
Lemma wrong_network_fails_fast_run :
  VerifyPayment.verify payHash (start (lastAlive otherNetworkNode))
  = (inr (mkPayment false FAILED None "Wrong network. Payment must be on Base."),
     mkSt (lastAlive otherNetworkNode)
       [ CallBlockNumber "https://base.publicnode.com";
         CallBlockNumber "https://mainnet.base.org";
         CallBlockNumber "https://base.llamarpc.com";
         CallBlockNumber "https://1rpc.io/base";
         CallNetwork "https://1rpc.io/base" ]).
Proof.
  refine (proj1 (@wrong_network_fails_fast Pool staticPool abiDecoder payHash
                   (start (lastAlive otherNetworkNode)) _ 1 _ _)).
  - vm_compute; reflexivity.
  - discriminate.
Defined.

(** The receipt of [payHash] carries exactly 3000000 units and is
    confirmed; the one of [shortHash] carries 2999999 and is pending. *)
Lemma exact_price_confirms_run :
  fst (VerifyPayment.verify payHash (start (lastAlive baseNode)))
  = inr (mkPayment true CONFIRMED (Some 3000000) "Payment confirmed.")
  /\ fst (VerifyPayment.verify shortHash (start (lastAlive baseNode)))
     = inr (mkPayment true PENDING (Some 2999999)
              "Transaction found, but payment not detected yet.").
Proof.
  pose (s1 := snd (VerifyPayment.withAnyProvider getNetwork (start (lastAlive baseNode)))).
  split.
  - erewrite (proj1 (@exact_price_confirms Pool staticPool abiDecoder payHash
                       (start (lastAlive baseNode)) s1
                       (snd (VerifyPayment.withAnyProvider
                               (getTransactionReceipt payHash) s1))
                       (receiptWith 101 [usdcTransfer threeUSDC]) _ _ _)).
    + reflexivity.
    + vm_compute; reflexivity.
  - erewrite (proj2 (@exact_price_confirms Pool staticPool abiDecoder shortHash
                       (start (lastAlive baseNode)) s1
                       (snd (VerifyPayment.withAnyProvider
                               (getTransactionReceipt shortHash) s1))
                       (receiptWith 95 [usdcTransfer oneUnitShort]) _ _ _)).
    + reflexivity.
    + vm_compute; reflexivity.
  Unshelve.
  all: vm_compute; reflexivity.
Defined.

(** The receipt of [payHash] lies in block 101 while the pool reports
    height 100: the route with [MIN_CONFIRMATIONS] holds it pending. *)
Lemma shallow_receipt_is_pending_run :
  fst (VerifyPaymentConf.verify payHash (start (lastAlive baseNode)))
  = inr (mkPayment true PENDING None "Waiting for confirmations.").
Proof.
  pose (s1 := snd (VerifyPaymentConf.withAnyProvider getNetwork
                     (start (lastAlive baseNode)))).
  pose (s2 := snd (VerifyPaymentConf.withAnyProvider
                     (getTransactionReceipt payHash) s1)).
  pose (s3 := snd (VerifyPaymentConf.withAnyProvider getBlockNumber s2)).
  rewrite (@shallow_receipt_is_pending Pool staticPool abiDecoder payHash
             (start (lastAlive baseNode)) s1 s2 s3
             (receiptWith 101 [usdcTransfer threeUSDC]) 100).
  - reflexivity.
  - vm_compute; reflexivity.
  - vm_compute; reflexivity.
  - reflexivity.
  - vm_compute; reflexivity.
  - vm_compute; reflexivity.
Defined.

(** The route without a minimum confirms the same shallow receipt. *)
Lemma depth_not_enforced :
  fst (VerifyPayment.withAnyProvider (getTransactionReceipt payHash)
         (start (lastAlive baseNode)))
  = inr (Some (receiptWith 101 [usdcTransfer threeUSDC]))
  /\ rc_status (receiptWith 101 [usdcTransfer threeUSDC]) = Some 1
  /\ fst (VerifyPayment.withAnyProvider getBlockNumber (start (lastAlive baseNode)))
     = inr 100
  /\ 100 - rc_blockNumber (receiptWith 101 [usdcTransfer threeUSDC]) + 1
     < MIN_CONFIRMATIONS
  /\ statusOf (VerifyPayment.verify payHash (start (lastAlive baseNode)))
     = Some CONFIRMED.
Proof. repeat split; vm_compute; reflexivity. Qed.

(** A hash with a leading space does not match the pattern, yet both
    routes trim it, accept it and call the network. *)
Lemma padded_hash_accepted :
  isTxHash paddedHash = false
  /\ fst (VerifyPayment.GET (verifyRequest paddedHash) (start (lastAlive baseNode)))
     = inr (mkHttp 200 (mkPayment true CONFIRMED (Some 3000000) "Payment confirmed."))
  /\ trace (snd (VerifyPayment.GET (verifyRequest paddedHash)
                   (start (lastAlive baseNode)))) <> []
  /\ isTxHash (32%N :: targetHash) = false
  /\ flagOf (Explain.GET (explainRequest (32%N :: targetHash) None)
               (start (lastAlive baseNode))) = Some true
  /\ trace (snd (Explain.GET (explainRequest (32%N :: targetHash) None)
                   (start (lastAlive baseNode)))) <> [].
Proof. repeat split; vm_compute; congruence. Qed.

(** A request whose parameters are not hashes is rejected by the four
    routes without a call. *)
Lemma malformed_hash_rejected_run :
  (exists resp,
      Explain.GET (explainRequest (lit "0x12") (Some (lit "paid")))
        (start (lastAlive baseNode))
      = (inr resp, start (lastAlive baseNode))
      /\ summary resp = "Paste a transaction hash"
      /\ accessUnlocked resp = false)
  /\ VerifyPayment.GET (explainRequest (lit "0x12") (Some (lit "paid")))
       (start (lastAlive baseNode))
     = (inr (mkHttp 400 (mkPayment false FAILED None "Invalid tx hash.")),
        start (lastAlive baseNode)).
Proof.
  pose proof (@malformed_hash_rejected Pool staticPool abiDecoder
                (explainRequest (lit "0x12") (Some (lit "paid")))
                (start (lastAlive baseNode))) as [Hexplain Hverify].
  split.
  - apply Hexplain. vm_compute; reflexivity.
  - apply Hverify. vm_compute; reflexivity.
Defined.

(** The unlock flag does not follow the Payment Verifier's verdict: a
    rejected target hash keeps the flag false although the payment
    reference is supplied and confirmed by both checks; and on a pool of
    another network the flag is true although [verify] answers FAILED. *)
Lemma unlock_flag_not_the_verdict :
  truthy (payTxParam (explainRequest (lit "not-a-hash") (Some payHash))) = true
  /\ flagOf (ExplainPaid.GET (explainRequest (lit "not-a-hash") (Some payHash))
               (start (lastAlive baseNode))) = Some false
  /\ verdictOf (ExplainPaid.isPaymentConfirmed payHash (start (lastAlive baseNode)))
     = true
  /\ statusOf (VerifyPayment.verify payHash (start (lastAlive baseNode)))
     = Some CONFIRMED
  /\ flagOf (ExplainPaid.GET (explainRequest targetHash (Some payHash))
               (start (lastAlive otherNetworkNode))) = Some true
  /\ statusOf (VerifyPayment.verify payHash (start (lastAlive otherNetworkNode)))
     = Some FAILED.
Proof. repeat split; vm_compute; reflexivity. Qed.

(** The route of src/app/api/explain/route.ts never reads [payTx]: a
    request that supplies no payment reference is answered with the flag
    true as soon as the transaction can be analysed. *)
Example explain_without_payment_unlocks :
  searchParams_get (explainRequest targetHash None) (lit "payTx") = None
  /\ flagOf (Explain.GET (explainRequest targetHash None)
               (start (lastAlive baseNode))) = Some true.
Proof. split; vm_compute; reflexivity. Qed.

(** Without a payment reference the flag is false, and two requests with
    the same payment reference and well-formed targets get the same flag. *)
Lemma unlock_flag_source_run :
  flagOf (ExplainPaid.GET (explainRequest targetHash None)
            (start (lastAlive baseNode))) = Some false
  /\ flagOf (ExplainPaid.GET (explainRequest targetHash (Some payHash))
               (start (lastAlive baseNode)))
     = flagOf (ExplainPaid.GET (explainRequest unknownHash (Some payHash))
                 (start (lastAlive baseNode))).
Proof.
  pose proof (@unlock_flag_source Pool staticPool abiDecoder)
    as (_ & Hnone & Hsame & _).
  split.
  - apply Hnone. vm_compute; reflexivity.
  - apply Hsame; vm_compute; reflexivity.
Defined.

(** A receipt with a log that fails to decode and a sufficient transfer
    unlocks: the decode failure does not force the flag false. *)
Lemma decode_failure_does_not_lock :
  fst (ExplainPaid.withAnyProvider (getTransactionReceipt mixedHash)
         (start (lastAlive baseNode)))
  = inr (Some (receiptWith 95 [brokenTransfer; usdcTransfer threeUSDC]))
  /\ parseLog [TransferEvent] (log_topics brokenTransfer) (log_data brokenTransfer)
     = ParseThrew (JsError "data out-of-bounds")
  /\ flagOf (ExplainPaid.GET (explainRequest targetHash (Some mixedHash))
               (start (lastAlive baseNode))) = Some true.
Proof. repeat split; vm_compute; reflexivity. Qed.

(** The flag stays false when the pool is down, when the receipt is
    unknown, when the check throws and when the only log of the receipt
    fails to decode; the failing log of the mixed receipt adds nothing. *)
Lemma payment_errors_keep_locked_run :
  flagOf (ExplainPaid.GET (explainRequest targetHash (Some payHash)) (start allDown))
  = Some false
  /\ flagOf (ExplainPaid.GET (explainRequest targetHash (Some unknownHash))
               (start (lastAlive baseNode))) = Some false
  /\ flagOf (ExplainPaid.GET_with throwingCheck
               (explainRequest targetHash (Some payHash))
               (start (lastAlive baseNode))) = Some false
  /\ flagOf (ExplainPaid.GET (explainRequest targetHash (Some brokenHash))
               (start (lastAlive baseNode))) = Some false
  /\ fold_left addPayment ([] ++ brokenTransfer :: [usdcTransfer threeUSDC])%list 0
     = fold_left addPayment ([] ++ [usdcTransfer threeUSDC])%list 0.
Proof.
  split; [|split; [|split; [|split]]].
  - eapply (proj1 (@payment_errors_keep_locked Pool staticPool abiDecoder
                     (explainRequest targetHash (Some payHash)) (start allDown)
                     eq_refl eq_refl)).
    vm_compute; reflexivity.
  - eapply (proj1 (proj2 (@payment_errors_keep_locked Pool staticPool abiDecoder
                     (explainRequest targetHash (Some unknownHash))
                     (start (lastAlive baseNode)) eq_refl eq_refl))).
    vm_compute; reflexivity.
  - eapply (proj1 (proj2 (proj2 (@payment_errors_keep_locked Pool staticPool
                     abiDecoder (explainRequest targetHash (Some payHash))
                     (start (lastAlive baseNode)) eq_refl eq_refl)))).
    vm_compute; reflexivity.
  - eapply (proj1 (proj2 (proj2 (proj2 (@payment_errors_keep_locked Pool
                     staticPool abiDecoder
                     (explainRequest targetHash (Some brokenHash))
                     (start (lastAlive baseNode)) eq_refl eq_refl))))).
    + vm_compute; reflexivity.
    + cbn [rc_logs receiptWith]. repeat constructor.
      eexists. vm_compute; reflexivity.
  - eapply (proj2 (proj2 (proj2 (proj2 (@payment_errors_keep_locked Pool
                     staticPool abiDecoder
                     (explainRequest targetHash (Some payHash))
                     (start (lastAlive baseNode)) eq_refl eq_refl))))).
    vm_compute; reflexivity.
Defined.

(** The target transaction carries 5 wei and the payload "0x": both routes
    answer "ETH transfer", with and without a confirmed payment. *)
Lemma summary_classification_run :
  (exists resp s2,
      Explain.GET (explainRequest targetHash None) (start (lastAlive baseNode))
      = (inr resp, s2)
      /\ summary resp = "ETH transfer")
  /\ (exists resp s2,
      ExplainPaid.GET (explainRequest targetHash (Some payHash))
        (start (lastAlive baseNode))
      = (inr resp, s2)
      /\ summary resp = "ETH transfer").
Proof.
  pose (s := start (lastAlive baseNode)).
  pose (receipt := receiptWith 90 [wethApproval; usdcTransfer threeUSDC]).
  assert (Hfrom : normalise (tx_from targetTx) = inr (Some payer))
    by (vm_compute; reflexivity).
  assert (Hto : normalise (tx_to targetTx) = inr (Some WETH))
    by (vm_compute; reflexivity).
  split.
  - pose (req := explainRequest targetHash None).
    pose (s1 := snd (Explain.withAnyProvider (getTransaction (txParam req)) s)).
    pose (s2 := snd (Explain.withAnyProvider
                       (getTransactionReceipt (txParam req)) s1)).
    assert (Hv : isTxHash (txParam req) = true) by (vm_compute; reflexivity).
    assert (Htx : Explain.withAnyProvider (getTransaction (txParam req)) s
                  = (inr (Some targetTx), s1)) by (vm_compute; reflexivity).
    assert (Hrc : Explain.withAnyProvider (getTransactionReceipt (txParam req)) s1
                  = (inr (Some receipt), s2)) by (vm_compute; reflexivity).
    pose proof (proj1 (summary_classification req s s1 s2 targetTx receipt
                         (Some payer) (Some WETH) Hv Hfrom Hto) Htx Hrc) as Hget.
    exists (mkExplain (summaryOf targetTx) None
              (explanationLines (Some payer) (Some WETH)
                 (classifyLogs (rc_logs receipt))
                 (riskOf (classifyLogs (rc_logs receipt))))
              (basescanUrl (txParam req)) true), s2.
    split; [exact Hget|vm_compute; reflexivity].
  - pose (req := explainRequest targetHash (Some payHash)).
    pose (s0 := snd (ExplainPaid.decideUnlock ExplainPaid.isPaymentConfirmed
                       (payTxParam req) s)).
    pose (s1 := snd (ExplainPaid.withAnyProvider (getTransaction (txParam req)) s0)).
    pose (s2 := snd (ExplainPaid.withAnyProvider
                       (getTransactionReceipt (txParam req)) s1)).
    assert (Hv : isTxHash (txParam req) = true) by (vm_compute; reflexivity).
    assert (Htx : ExplainPaid.withAnyProvider (getTransaction (txParam req)) s0
                  = (inr (Some targetTx), s1)) by (vm_compute; reflexivity).
    assert (Hrc : ExplainPaid.withAnyProvider
                    (getTransactionReceipt (txParam req)) s1
                  = (inr (Some receipt), s2)) by (vm_compute; reflexivity).
    destruct (proj1 (proj2 (summary_classification req s s1 s2 targetTx receipt
                              (Some payer) (Some WETH) Hv Hfrom Hto))
                ExplainPaid.isPaymentConfirmed Htx Hrc) as [flag Hget].
    exists (mkExplain (summaryOf targetTx)
              (Some (ExplainPaid.feeOf (Some receipt)))
              (explanationLines (Some payer) (Some WETH)
                 (classifyLogs (rc_logs receipt))
                 (riskOf (classifyLogs (rc_logs receipt))))
              (basescanUrl (txParam req)) flag), s2.
    split; [exact Hget|vm_compute; reflexivity].
Defined.

(** The receipt of the target transaction: an approval on one contract and
    a transfer on another. *)
Lemma classifier_metrics_run :
  size (touchedContracts (classifyLogs [wethApproval; usdcTransfer threeUSDC])) = 2%nat
  /\ tokenTransfers (classifyLogs [wethApproval; usdcTransfer threeUSDC]) = 1%nat
  /\ approvals (classifyLogs [wethApproval; usdcTransfer threeUSDC]) = 1%nat
  /\ riskOf (classifyLogs [wethApproval; usdcTransfer threeUSDC]) = Medium.
Proof.
  apply (proj2 (proj2 (proj2 (proj2 (proj2 (proj2
           (@classifier_metrics abiDecoder [])))))) wethApproval
           (usdcTransfer threeUSDC)).
  - vm_compute; reflexivity.
  - vm_compute; reflexivity.
  - reflexivity.
  - reflexivity.
  - vm_compute. discriminate.
Defined.

(** * Further properties of the routes *)

(** ** The scan of the provider pool *)

Section ScanFacts.
Context {W : Type} `{Rpc W}.

Lemma getBlockNumber_single : singleCall getBlockNumber CallBlockNumber.
Proof. intros u s. apply perform_trace. Qed.

Lemma getNetwork_single : singleCall getNetwork CallNetwork.
Proof. intros u s. apply perform_trace. Qed.

Lemma getTransaction_single (hash : jsstr) :
  singleCall (getTransaction hash) (fun u => CallTransaction u hash).
Proof. intros u s. apply perform_trace. Qed.

Lemma getTransactionReceipt_single (hash : jsstr) :
  singleCall (getTransactionReceipt hash) (fun u => CallReceipt u hash).
Proof. intros u s. apply perform_trace. Qed.

Lemma getLogs_single (f : LogFilter) :
  singleCall (getLogs f) (fun u => CallLogs u f).
Proof. intros u s. apply perform_trace. Qed.

(** One attempt issues the probe and, when the probe answers, the read. *)
Lemma attempt_calls {T} (fn : Url -> M W T) (c : Url -> Call) u (s : St W) :
  singleCall fn c ->
  match attempt fn u s with
  | (r, s') =>
      trace s' = (trace s ++ [CallBlockNumber u])%list
      \/ trace s' = (trace s ++ [CallBlockNumber u; c u])%list
  end.
Proof.
  intros Hfn. unfold attempt, bind.
  pose proof (getBlockNumber_single u s) as Hp.
  destruct (getBlockNumber u s) as [[e|height] s1]; cbn [snd] in Hp.
  - now left.
  - pose proof (Hfn u s1) as Hc.
    destruct (fn u s1) as [r s2]; cbn [snd] in Hc.
    right. rewrite Hc, Hp, <- app_assoc. reflexivity.
Qed.

(** The calls of a scan: at most two per endpoint, each a probe of a
    listed endpoint or the read on it, the first one the probe of the
    first endpoint. *)
Lemma scan_calls {T} generic (fn : Url -> M W T) (c : Url -> Call)
    urls last (s : St W) r s' :
  singleCall fn c ->
  scanProviders generic fn urls last s = (r, s') ->
  exists calls,
    trace s' = (trace s ++ calls)%list
    /\ (length calls <= 2 * length urls)%nat
    /\ Forall (fun k => exists u, In u urls
                          /\ (k = CallBlockNumber u \/ k = c u)) calls
    /\ match urls with
       | [] => calls = []
       | u :: _ => exists rest, calls = CallBlockNumber u :: rest
       end.
Proof.
  intros Hfn. revert last s.
  induction urls as [|u rest IH]; intros last s Hscan.
  - cbn in Hscan. injection Hscan as _ <-. exists [].
    rewrite app_nil_r. repeat split; auto.
  - cbn [scanProviders] in Hscan. unfold tryCatch in Hscan.
    pose proof (attempt_calls fn c u s Hfn) as Hat.
    assert (Hprobe : exists v, In v (u :: rest)
                       /\ (CallBlockNumber u = CallBlockNumber v
                           \/ CallBlockNumber u = c v))
      by (exists u; cbn; auto).
    assert (Hread : exists v, In v (u :: rest)
                      /\ (c u = CallBlockNumber v \/ c u = c v))
      by (exists u; cbn; auto).
    destruct (attempt fn u s) as [[e|v] s1].
    + apply IH in Hscan as (calls & Ht & Hlen & Hall & _).
      assert (Hwiden : Forall (fun k => exists v, In v (u :: rest)
                          /\ (k = CallBlockNumber v \/ k = c v)) calls).
      { eapply List.Forall_impl; [|exact Hall].
        cbn. intros k (v & Hin & Hk). eauto. }
      destruct Hat as [Hat|Hat].
      * exists (CallBlockNumber u :: calls). repeat split.
        -- rewrite Ht, Hat, <- app_assoc. reflexivity.
        -- cbn [length]. lia.
        -- constructor; assumption.
        -- eauto.
      * exists (CallBlockNumber u :: c u :: calls). repeat split.
        -- rewrite Ht, Hat, <- app_assoc. reflexivity.
        -- cbn [length]. lia.
        -- repeat constructor; assumption.
        -- eauto.
    + injection Hscan as _ <-. destruct Hat as [Hat|Hat].
      * exists [CallBlockNumber u]. repeat split.
        -- exact Hat.
        -- cbn [length]. lia.
        -- repeat constructor; assumption.
        -- eauto.
      * exists [CallBlockNumber u; c u]. repeat split.
        -- exact Hat.
        -- cbn [length]. lia.
        -- repeat constructor; assumption.
        -- eauto.
Qed.

(** The first endpoint that answers probe and read gives the result, and
    the scan ends there: the endpoints after it are not contacted, whatever
    the result is (a null result included). *)
Theorem first_answer_wins {T} (generic : string) (fn : Url -> M W T)
    (pre : list Url) (u : Url) (rest : list Url) (s s1 s2 : St W)
    (last : option Exn) (v : T) :
  allThrow (attempt fn) pre s None s1 last ->
  attempt fn u s1 = (inr v, s2) ->
  withAnyProviderOver generic (pre ++ u :: rest) fn s = (inr v, s2).
Proof.
  intros Hpre Hrun. unfold withAnyProviderOver.
  rewrite (scanProviders_skip generic fn pre (u :: rest) s None s1 last Hpre).
  now apply scanProviders_answer.
Qed.

(** The calls of one read through the pool: at most two per endpoint, to
    listed endpoints only, each a liveness probe or the read itself, and
    the first call is the probe of the first endpoint: every read starts
    over at the head of the list. *)
Theorem withAnyProvider_calls {T} (generic : string) (urls : list Url)
    (fn : Url -> M W T) (c : Url -> Call) (s : St W) :
  singleCall fn c ->
  exists calls,
    trace (snd (withAnyProviderOver generic urls fn s)) = (trace s ++ calls)%list
    /\ (length calls <= 2 * length urls)%nat
    /\ Forall (fun k => exists u, In u urls
                          /\ (k = CallBlockNumber u \/ k = c u)) calls
    /\ match urls with
       | [] => calls = []
       | u :: _ => exists rest, calls = CallBlockNumber u :: rest
       end.
Proof.
  intros Hfn. unfold withAnyProviderOver.
  destruct (scanProviders generic fn urls None s) as [r s'] eqn:Hscan.
  exact (scan_calls generic fn c urls None s r s' Hfn Hscan).
Qed.

End ScanFacts.

(** ** The number of calls of a handler *)

Section BudgetFacts.
Context {W : Type} `{Rpc W} `{Ethers}.

Lemma within_refl (s : St W) : within 0 s s.
Proof. exists []. now rewrite app_nil_r. Qed.

Lemma within_trans (n m : nat) (s1 s2 s3 : St W) :
  within n s1 s2 -> within m s2 s3 -> within (n + m) s1 s3.
Proof.
  intros (c1 & H1 & L1) (c2 & H2 & L2). exists (c1 ++ c2)%list. split.
  - now rewrite H2, H1, app_assoc.
  - rewrite length_app. lia.
Qed.

Lemma within_weaken (n m : nat) (s s' : St W) :
  (n <= m)%nat -> within n s s' -> within m s s'.
Proof. intros Hle (c & Hc & Hl). exists c. split; [exact Hc|lia]. Qed.

(** A read through the four endpoints costs at most eight calls. *)
Lemma pool_read_within {T} generic (fn : Url -> M W T) (c : Url -> Call)
    (s : St W) r s' :
  singleCall fn c ->
  withAnyProviderOver generic RPC_URLS fn s = (r, s') ->
  within 8 s s'.
Proof.
  intros Hfn Hscan.
  destruct (scan_calls generic fn c RPC_URLS None s r s' Hfn Hscan)
    as (calls & Ht & Hlen & _).
  exists calls. split; [exact Ht|exact Hlen].
Qed.

End BudgetFacts.

Ltac pool_read H c single :=
  apply (pool_read_within _ _ c _ _ _ single) in H.

Ltac budget :=
  eapply within_weaken; cycle 1;
  [ repeat (eapply within_trans; [eassumption|]); apply within_refl
  | cbn; lia ].

Section VerifyBudget.
Context {W : Type} `{Rpc W} `{Ethers}.

(** A payment verification issues at most 32 calls: four reads through
    the pool at most (network, receipt, transaction, logs; or network,
    receipt, height), of at most two calls per endpoint. *)
Theorem verify_call_budget (txHash : jsstr) (s : St W) :
  within 32 s (snd (VerifyPayment.verify txHash s))
  /\ within 32 s (snd (VerifyPaymentConf.verify txHash s)).
Proof.
  split.
  - unfold VerifyPayment.verify, VerifyPayment.withAnyProvider, bind, tryCatch, ret.
    destruct (withAnyProviderOver _ RPC_URLS getNetwork s) as [[e|cid] s1] eqn:H1;
      pool_read H1 CallNetwork getNetwork_single; cbn [snd]; [budget|].
    destruct (negb (cid =? BASE_CHAIN_ID)); cbn [snd]; [budget|].
    destruct (withAnyProviderOver _ RPC_URLS (getTransactionReceipt txHash) s1)
      as [[e|receipt] s2] eqn:H2;
      pool_read H2 (fun u => CallReceipt u txHash)
        (getTransactionReceipt_single txHash).
    + destruct (withAnyProviderOver _ RPC_URLS (getTransaction txHash) s2)
        as [[e'|[tx|]] s3] eqn:H3;
        pool_read H3 (fun u => CallTransaction u txHash)
          (getTransaction_single txHash); cbn [snd]; try budget.
      destruct (minedBlock tx) as [bn|]; cbn [snd]; [|budget].
      destruct (withAnyProviderOver _ RPC_URLS (getLogs (fallbackFilter bn)) s3)
        as [[e''|logs] s4] eqn:H4;
        pool_read H4 (fun u => CallLogs u (fallbackFilter bn))
          (getLogs_single (fallbackFilter bn)); cbn [snd]; [budget|].
      destruct (PRICE_USDC_UNITS <=? _); cbn [snd]; budget.
    + destruct receipt as [receipt|].
      * destruct (negb (statusIsOne receipt)); cbn [snd]; [budget|].
        destruct (PRICE_USDC_UNITS <=? _); cbn [snd]; budget.
      * destruct (withAnyProviderOver _ RPC_URLS (getTransaction txHash) s2)
          as [[e'|[tx|]] s3] eqn:H3;
          pool_read H3 (fun u => CallTransaction u txHash)
            (getTransaction_single txHash); cbn [snd]; try budget.
        destruct (minedBlock tx) as [bn|]; cbn [snd]; [|budget].
        destruct (withAnyProviderOver _ RPC_URLS (getLogs (fallbackFilter bn)) s3)
          as [[e''|logs] s4] eqn:H4;
          pool_read H4 (fun u => CallLogs u (fallbackFilter bn))
            (getLogs_single (fallbackFilter bn)); cbn [snd]; [budget|].
        destruct (PRICE_USDC_UNITS <=? _); cbn [snd]; budget.
  - unfold VerifyPaymentConf.verify, VerifyPaymentConf.withAnyProvider,
      bind, tryCatch, ret.
    destruct (withAnyProviderOver _ RPC_URLS getNetwork s) as [[e|cid] s1] eqn:H1;
      pool_read H1 CallNetwork getNetwork_single; cbn [snd]; [budget|].
    destruct (negb (cid =? BASE_CHAIN_ID)); cbn [snd]; [budget|].
    destruct (withAnyProviderOver _ RPC_URLS (getTransactionReceipt txHash) s1)
      as [[e|receipt] s2] eqn:H2;
      pool_read H2 (fun u => CallReceipt u txHash)
        (getTransactionReceipt_single txHash).
    + destruct (withAnyProviderOver _ RPC_URLS (getTransaction txHash) s2)
        as [[e'|[tx|]] s3] eqn:H3;
        pool_read H3 (fun u => CallTransaction u txHash)
          (getTransaction_single txHash); cbn [snd]; try budget.
      destruct (minedBlock tx) as [bn|]; cbn [snd]; [|budget].
      destruct (withAnyProviderOver _ RPC_URLS (getLogs (fallbackFilter bn)) s3)
        as [[e''|logs] s4] eqn:H4;
        pool_read H4 (fun u => CallLogs u (fallbackFilter bn))
          (getLogs_single (fallbackFilter bn)); cbn [snd]; [budget|].
      destruct (PRICE_USDC_UNITS <=? _); cbn [snd]; budget.
    + destruct receipt as [receipt|].
      * destruct (negb (statusIsOne receipt)); cbn [snd]; [budget|].
        destruct (withAnyProviderOver _ RPC_URLS getBlockNumber s2)
          as [[e'|latest] s3] eqn:H3;
          pool_read H3 CallBlockNumber getBlockNumber_single;
          cbn [snd]; [budget|].
        destruct (_ <? MIN_CONFIRMATIONS); cbn [snd]; [budget|].
        destruct (PRICE_USDC_UNITS <=? _); cbn [snd]; budget.
      * destruct (withAnyProviderOver _ RPC_URLS (getTransaction txHash) s2)
          as [[e'|[tx|]] s3] eqn:H3;
          pool_read H3 (fun u => CallTransaction u txHash)
            (getTransaction_single txHash); cbn [snd]; try budget.
        destruct (minedBlock tx) as [bn|]; cbn [snd]; [|budget].
        destruct (withAnyProviderOver _ RPC_URLS (getLogs (fallbackFilter bn)) s3)
          as [[e''|logs] s4] eqn:H4;
          pool_read H4 (fun u => CallLogs u (fallbackFilter bn))
            (getLogs_single (fallbackFilter bn)); cbn [snd]; [budget|].
        destruct (PRICE_USDC_UNITS <=? _); cbn [snd]; budget.
Qed.

End VerifyBudget.

(** ** The paths of [verify] outside the receipt *)

Section VerifyPaths.
Context {W : Type} `{Rpc W} `{Ethers}.

(** Without a receipt (missing, or the pool exhausted on the receipt
    query), both verify routes look the transaction up: an unknown
    transaction gives NOT_FOUND; a transaction without a block number, or
    with block number 0, gives PENDING without asking for logs. *)
Theorem verify_without_receipt (txHash : jsstr) (s s1 s2 s3 : St W)
    (r : Exn + option TransactionReceipt) :
  VerifyPayment.withAnyProvider getNetwork s = (inr BASE_CHAIN_ID, s1) ->
  VerifyPayment.withAnyProvider (getTransactionReceipt txHash) s1 = (r, s2) ->
  noReceipt r ->
  (VerifyPayment.withAnyProvider (getTransaction txHash) s2 = (inr None, s3) ->
   let notFound := mkPayment true NOT_FOUND None "Transaction not found yet." in
   VerifyPayment.verify txHash s = (inr notFound, s3)
   /\ VerifyPaymentConf.verify txHash s = (inr notFound, s3))
  /\ (forall tx,
      VerifyPayment.withAnyProvider (getTransaction txHash) s2
      = (inr (Some tx), s3) ->
      tx_blockNumber tx = None \/ tx_blockNumber tx = Some 0 ->
      let pending := mkPayment true PENDING None "Transaction is still pending." in
      VerifyPayment.verify txHash s = (inr pending, s3)
      /\ VerifyPaymentConf.verify txHash s = (inr pending, s3)).
Proof.
  intros Hnet Hrc Hnone.
  unfold VerifyPayment.withAnyProvider in *. split.
  - intros Htx. cbv zeta.
    split; [unfold VerifyPayment.verify, VerifyPayment.withAnyProvider
          |unfold VerifyPaymentConf.verify, VerifyPaymentConf.withAnyProvider];
      unfold bind, tryCatch, ret;
      rewrite Hnet, Z.eqb_refl; cbn [negb]; rewrite Hrc;
      destruct Hnone as [->|[e ->]]; rewrite Htx; reflexivity.
  - intros tx Htx Hblock. cbv zeta.
    assert (Hmined : minedBlock tx = None).
    { unfold minedBlock. destruct Hblock as [->| ->]; reflexivity. }
    split; [unfold VerifyPayment.verify, VerifyPayment.withAnyProvider
          |unfold VerifyPaymentConf.verify, VerifyPaymentConf.withAnyProvider];
      unfold bind, tryCatch, ret;
      rewrite Hnet, Z.eqb_refl; cbn [negb]; rewrite Hrc;
      destruct Hnone as [->|[e ->]]; rewrite Htx, Hmined; reflexivity.
Qed.

(** The logs fallback: without a receipt, for a transaction mined in block
    [bn], both verify routes query the logs of the stablecoin contract in
    that block alone, filtered by the Transfer topic and the payment
    address as recipient, and answer CONFIRMED exactly when the qualifying
    amounts of the returned logs reach the price; neither route asks for
    the height on this path. *)
Theorem verify_logs_fallback (txHash : jsstr) (s s1 s2 s3 s4 : St W)
    (r : Exn + option TransactionReceipt) (tx : TransactionResponse)
    (bn : Z) (logs : list Log) :
  VerifyPayment.withAnyProvider getNetwork s = (inr BASE_CHAIN_ID, s1) ->
  VerifyPayment.withAnyProvider (getTransactionReceipt txHash) s1 = (r, s2) ->
  noReceipt r ->
  VerifyPayment.withAnyProvider (getTransaction txHash) s2 = (inr (Some tx), s3) ->
  tx_blockNumber tx = Some bn ->
  bn <> 0 ->
  VerifyPayment.withAnyProvider
    (getLogs (mkFilter bn bn USDC_BASE
                [Some TRANSFER_TOPIC; None;
                 Some "0x0000000000000000000000003b5ca729ae7d427616873f5cd0b9418243090c4c"]))
    s3 = (inr logs, s4) ->
  let paid := qualifyingSum logs in
  let answer :=
    if PRICE_USDC_UNITS <=? paid
    then mkPayment true CONFIRMED (Some paid) "Payment confirmed (logs fallback)."
    else mkPayment true PENDING (Some paid) "Transaction found, waiting for payment." in
  VerifyPayment.verify txHash s = (inr answer, s4)
  /\ VerifyPaymentConf.verify txHash s = (inr answer, s4).
Proof.
  intros Hnet Hrc Hnone Htx Hblock Hbn Hlogs paid answer.
  assert (Hmined : minedBlock tx = Some bn).
  { unfold minedBlock. rewrite Hblock.
    now destruct (Z.eqb_spec bn 0). }
  change (mkFilter bn bn USDC_BASE _) with (fallbackFilter bn) in Hlogs.
  subst answer paid. unfold VerifyPayment.withAnyProvider in *.
  split; [unfold VerifyPayment.verify, VerifyPayment.withAnyProvider
          |unfold VerifyPaymentConf.verify, VerifyPaymentConf.withAnyProvider];
    unfold bind, tryCatch, ret;
    rewrite Hnet, Z.eqb_refl; cbn [negb]; rewrite Hrc;
    destruct Hnone as [->|[e ->]]; rewrite Htx, Hmined, Hlogs;
    rewrite getPaidAmountFromLogs_qualifying; cbv zeta;
    destruct (PRICE_USDC_UNITS <=? qualifyingSum logs); reflexivity.
Qed.

(** Pool exhaustion in [verify]: when every endpoint fails on the network
    query, on the transaction lookup, on the logs query or (in the route
    with [MIN_CONFIRMATIONS]) on the height query, [verify] throws the
    last error, and so does [GET]: no JSON status is produced.  Only the
    receipt query is guarded by a [catch]. *)
Theorem verify_throws_on_exhaustion (txHash : jsstr) (s : St W) (e : Exn) :
  (forall s1,
      VerifyPayment.withAnyProvider getNetwork s = (inl e, s1) ->
      VerifyPayment.verify txHash s = (inl e, s1)
      /\ VerifyPaymentConf.verify txHash s = (inl e, s1)
      /\ (forall req, payTxParam req = txHash -> isTxHash txHash = true ->
          VerifyPayment.GET req s = (inl e, s1)
          /\ VerifyPaymentConf.GET req s = (inl e, s1)))
  /\ (forall s1 s2 s3 r,
      VerifyPayment.withAnyProvider getNetwork s = (inr BASE_CHAIN_ID, s1) ->
      VerifyPayment.withAnyProvider (getTransactionReceipt txHash) s1 = (r, s2) ->
      noReceipt r ->
      VerifyPayment.withAnyProvider (getTransaction txHash) s2 = (inl e, s3) ->
      VerifyPayment.verify txHash s = (inl e, s3)
      /\ VerifyPaymentConf.verify txHash s = (inl e, s3))
  /\ (forall s1 s2 s3 s4 r tx bn,
      VerifyPayment.withAnyProvider getNetwork s = (inr BASE_CHAIN_ID, s1) ->
      VerifyPayment.withAnyProvider (getTransactionReceipt txHash) s1 = (r, s2) ->
      noReceipt r ->
      VerifyPayment.withAnyProvider (getTransaction txHash) s2
      = (inr (Some tx), s3) ->
      minedBlock tx = Some bn ->
      VerifyPayment.withAnyProvider (getLogs (fallbackFilter bn)) s3 = (inl e, s4) ->
      VerifyPayment.verify txHash s = (inl e, s4)
      /\ VerifyPaymentConf.verify txHash s = (inl e, s4))
  /\ (forall s1 s2 s3 receipt,
      VerifyPayment.withAnyProvider getNetwork s = (inr BASE_CHAIN_ID, s1) ->
      VerifyPayment.withAnyProvider (getTransactionReceipt txHash) s1
      = (inr (Some receipt), s2) ->
      rc_status receipt = Some 1 ->
      VerifyPayment.withAnyProvider getBlockNumber s2 = (inl e, s3) ->
      VerifyPaymentConf.verify txHash s = (inl e, s3)).
Proof.
  unfold VerifyPayment.withAnyProvider.
  split; [|split; [|split]].
  - intros s1 Hnet.
    assert (Hv1 : VerifyPayment.verify txHash s = (inl e, s1))
      by (unfold VerifyPayment.verify, VerifyPayment.withAnyProvider, bind;
          now rewrite Hnet).
    assert (Hv2 : VerifyPaymentConf.verify txHash s = (inl e, s1))
      by (unfold VerifyPaymentConf.verify, VerifyPaymentConf.withAnyProvider,
            bind; now rewrite Hnet).
    split; [exact Hv1|split; [exact Hv2|]].
    intros req Hparam Hvalid. split.
    + unfold VerifyPayment.GET. fold (payTxParam req).
      rewrite Hparam, Hvalid. cbn [negb]. unfold bind. now rewrite Hv1.
    + unfold VerifyPaymentConf.GET. fold (payTxParam req).
      rewrite Hparam, Hvalid. cbn [negb]. unfold bind. now rewrite Hv2.
  - intros s1 s2 s3 r Hnet Hrc Hnone Htx.
    split; [unfold VerifyPayment.verify, VerifyPayment.withAnyProvider
          |unfold VerifyPaymentConf.verify, VerifyPaymentConf.withAnyProvider];
      unfold bind, tryCatch, ret;
      rewrite Hnet, Z.eqb_refl; cbn [negb]; rewrite Hrc;
      destruct Hnone as [->|[e' ->]]; rewrite Htx; reflexivity.
  - intros s1 s2 s3 s4 r tx bn Hnet Hrc Hnone Htx Hmined Hlogs.
    split; [unfold VerifyPayment.verify, VerifyPayment.withAnyProvider
          |unfold VerifyPaymentConf.verify, VerifyPaymentConf.withAnyProvider];
      unfold bind, tryCatch, ret;
      rewrite Hnet, Z.eqb_refl; cbn [negb]; rewrite Hrc;
      destruct Hnone as [->|[e' ->]]; rewrite Htx, Hmined, Hlogs; reflexivity.
  - intros s1 s2 s3 receipt Hnet Hrc Hstatus Hheight.
    unfold VerifyPaymentConf.verify, VerifyPaymentConf.withAnyProvider,
      bind, tryCatch, ret.
    rewrite Hnet, Z.eqb_refl. cbn [negb]. rewrite Hrc.
    unfold statusIsOne. rewrite Hstatus. cbn [Z.eqb Pos.eqb negb].
    now rewrite Hheight.
Qed.

End VerifyPaths.

(** ** The bodies the verify routes return *)

Lemma consistent_failed (msg : string) :
  consistentResult (mkPayment false FAILED None msg).
Proof.
  unfold consistentResult; cbn. repeat split; try discriminate; auto.
Qed.

Lemma consistent_not_found (msg : string) :
  consistentResult (mkPayment true NOT_FOUND None msg).
Proof.
  unfold consistentResult; cbn. repeat split; try discriminate; auto.
Qed.

Lemma consistent_pending (msg : string) :
  consistentResult (mkPayment true PENDING None msg).
Proof.
  unfold consistentResult; cbn. repeat split; discriminate.
Qed.

Lemma consistent_confirmed (paid : Z) (msg : string) :
  PRICE_USDC_UNITS <= paid ->
  consistentResult (mkPayment true CONFIRMED (Some paid) msg).
Proof.
  intros Hle. unfold consistentResult; cbn.
  repeat split; try discriminate; eauto.
  intros [Hs|Hs]; discriminate Hs.
Qed.

Lemma consistent_short (paid : Z) (msg : string) :
  paid < PRICE_USDC_UNITS ->
  consistentResult (mkPayment true PENDING (Some paid) msg).
Proof.
  intros Hlt. unfold consistentResult; cbn.
  repeat split; try discriminate.
  - intros _ p [= <-]. assumption.
  - intros [Hs|Hs]; discriminate Hs.
Qed.

Ltac settle :=
  intros [= <- _];
  first [ apply consistent_failed
        | apply consistent_not_found
        | apply consistent_pending
        | apply consistent_confirmed; assumption
        | apply consistent_short; assumption ].

Ltac crack :=
  repeat first
    [ match goal with
      | |- (inl _, _) = (inr _, _) -> _ => discriminate
      end
    | settle
    | match goal with
      | |- context [PRICE_USDC_UNITS <=? ?p] =>
          destruct (Z.leb_spec PRICE_USDC_UNITS p)
      end
    | match goal with
      | |- context [match ?x with _ => _ end] => destruct x
      end ].

Section VerifyResults.
Context {W : Type} `{Rpc W} `{Ethers}.

Lemma verify_consistent (txHash : jsstr) (s s' : St W) (res : PaymentResult) :
  VerifyPayment.verify txHash s = (inr res, s') -> consistentResult res.
Proof.
  unfold VerifyPayment.verify, bind, tryCatch, ret. cbv zeta. crack.
Qed.

Lemma verify_conf_consistent (txHash : jsstr) (s s' : St W) (res : PaymentResult) :
  VerifyPaymentConf.verify txHash s = (inr res, s') -> consistentResult res.
Proof.
  unfold VerifyPaymentConf.verify, bind, tryCatch, ret. cbv zeta. crack.
Qed.

(** Whatever the chain answers, a body returned by a verify route is
    consistent: [ok] is false exactly for FAILED, CONFIRMED carries an
    amount of at least 3000000 units, an amount carried by PENDING is below
    it, NOT_FOUND and FAILED carry none; and the HTTP status is 400 exactly
    for a malformed hash, 200 otherwise (FAILED bodies included). *)
Theorem verify_response_consistent (req : Request) (s s' : St W)
    (resp : HttpResponse) :
  VerifyPayment.GET req s = (inr resp, s')
  \/ VerifyPaymentConf.GET req s = (inr resp, s') ->
  consistentResult (body resp)
  /\ (isTxHash (payTxParam req) = false -> http_status resp = 400)
  /\ (isTxHash (payTxParam req) = true -> http_status resp = 200).
Proof.
  intros [Hget|Hget].
  - unfold VerifyPayment.GET in Hget. fold (payTxParam req) in Hget.
    destruct (isTxHash (payTxParam req)); cbn [negb] in Hget.
    + unfold bind, ret in Hget.
      destruct (VerifyPayment.verify (payTxParam req) s) as [[e|res] s1] eqn:Hv;
        [discriminate|].
      injection Hget as <- _. cbn [body http_status].
      split; [exact (verify_consistent _ _ _ _ Hv)|split; [discriminate|reflexivity]].
    + injection Hget as <- _. cbn [body http_status].
      split; [apply consistent_failed|split; [reflexivity|discriminate]].
  - unfold VerifyPaymentConf.GET in Hget. fold (payTxParam req) in Hget.
    destruct (isTxHash (payTxParam req)); cbn [negb] in Hget.
    + unfold bind, ret in Hget.
      destruct (VerifyPaymentConf.verify (payTxParam req) s) as [[e|res] s1] eqn:Hv;
        [discriminate|].
      injection Hget as <- _. cbn [body http_status].
      split; [exact (verify_conf_consistent _ _ _ _ Hv)
             |split; [discriminate|reflexivity]].
    + injection Hget as <- _. cbn [body http_status].
      split; [apply consistent_failed|split; [reflexivity|discriminate]].
Qed.

End VerifyResults.

(** ** The answers of the explain routes *)

Lemma basescanUrl_cases (tx : jsstr) :
  (tx = [] /\ basescanUrl tx = lit "https://basescan.org")
  \/ (tx <> [] /\ basescanUrl tx = (lit "https://basescan.org/tx/" ++ tx)%list).
Proof. destruct tx; [left|right]; split; try reflexivity; discriminate. Qed.

Section ExplainAnswers.
Context {W : Type} `{Rpc W} `{Ethers}.

(** The route of src/app/api/explain/route.ts never throws: whatever the
    pool and ethers do, it returns a response.  The response is unlocked
    exactly when it carries a classification ("ETH transfer" or "Contract
    interaction"); the placeholder, the still-loading answer and the
    failure answer are locked. *)
Theorem explain_always_answers (req : Request) (s : St W) :
  exists resp s',
    Explain.GET req s = (inr resp, s')
    /\ ((accessUnlocked resp = true
         /\ (summary resp = "ETH transfer"
             \/ summary resp = "Contract interaction"))
        \/ (accessUnlocked resp = false
            /\ (summary resp = "Paste a transaction hash"
                \/ summary resp = "Transaction found"
                \/ summary resp = "Unable to analyze transaction"))).
Proof.
  unfold Explain.GET. fold (txParam req).
  destruct (negb (truthy (txParam req)) || negb (isTxHash (txParam req))).
  - unfold ret. do 2 eexists. split; [reflexivity|]. cbn. auto.
  - unfold tryCatch, bind, ret, liftE.
    destruct (Explain.withAnyProvider (getTransaction (txParam req)) s)
      as [[e|transaction] s1];
      [do 2 eexists; split; [reflexivity|cbn; auto 6]|].
    destruct (Explain.withAnyProvider (getTransactionReceipt (txParam req)) s1)
      as [[e|receipt] s2];
      [do 2 eexists; split; [reflexivity|cbn; auto 6]|].
    destruct transaction as [transaction|], receipt as [receipt|];
      try (do 2 eexists; split; [reflexivity|cbn; auto 6]).
    destruct (normalise (tx_from transaction)) as [e|from];
      [do 2 eexists; split; [reflexivity|cbn; auto 6]|].
    destruct (normalise (tx_to transaction)) as [e|to];
      [do 2 eexists; split; [reflexivity|cbn; auto 6]|].
    do 2 eexists. split; [reflexivity|]. cbn [accessUnlocked summary].
    left. split; [reflexivity|]. unfold summaryOf.
    destruct (isEthTransfer transaction); auto.
Qed.

(** Every response of an explain route carries the explorer link built
    from the trimmed [tx] parameter, also when the parameter was rejected
    or the analysis failed: the bare explorer address for an empty
    parameter, and otherwise the address followed by "/tx/" and the
    parameter as given. *)
Theorem explain_link (req : Request) (s s' : St W) (resp : ExplainResponse) :
  Explain.GET req s = (inr resp, s')
  \/ (exists check, ExplainPaid.GET_with check req s = (inr resp, s')) ->
  (txParam req = [] /\ basescan resp = lit "https://basescan.org")
  \/ (txParam req <> []
      /\ basescan resp = (lit "https://basescan.org/tx/" ++ txParam req)%list).
Proof.
  intros Hget.
  assert (Hlink : basescan resp = basescanUrl (txParam req)).
  { destruct Hget as [Hget|[check Hget]].
    - unfold Explain.GET in Hget. fold (txParam req) in Hget.
      destruct (negb (truthy (txParam req)) || negb (isTxHash (txParam req)));
        [now injection Hget as <- _|].
      unfold tryCatch, bind, ret, liftE in Hget.
      destruct (Explain.withAnyProvider (getTransaction (txParam req)) s)
        as [[e|transaction] s1]; [now injection Hget as <- _|].
      destruct (Explain.withAnyProvider (getTransactionReceipt (txParam req)) s1)
        as [[e|receipt] s2]; [now injection Hget as <- _|].
      destruct transaction as [transaction|], receipt as [receipt|];
        try now injection Hget as <- _.
      destruct (normalise (tx_from transaction)) as [e|from];
        [now injection Hget as <- _|].
      destruct (normalise (tx_to transaction)) as [e|to];
        now injection Hget as <- _.
    - unfold ExplainPaid.GET_with in Hget.
      fold (txParam req) in Hget. fold (payTxParam req) in Hget.
      destruct (negb (truthy (txParam req)) || negb (isTxHash (txParam req)));
        [now injection Hget as <- _|].
      unfold bind at 1 in Hget. rewrite decideUnlock_value in Hget.
      unfold tryCatch, bind, ret, liftE in Hget.
      match type of Hget with
      | context [ExplainPaid.withAnyProvider (getTransaction (txParam req)) ?s0] =>
          destruct (ExplainPaid.withAnyProvider (getTransaction (txParam req)) s0)
            as [[e|transaction] s1]; [now injection Hget as <- _|]
      end.
      destruct (ExplainPaid.withAnyProvider
                  (getTransactionReceipt (txParam req)) s1)
        as [[e|receipt] s2]; [now injection Hget as <- _|].
      destruct transaction as [transaction|]; [|now injection Hget as <- _].
      destruct (normalise (tx_from transaction)) as [e|from];
        [now injection Hget as <- _|].
      destruct (normalise (tx_to transaction)) as [e|to];
        now injection Hget as <- _. }
  rewrite Hlink. apply basescanUrl_cases.
Qed.

End ExplainAnswers.

Section ExplainDegraded.
Context {W : Type} `{Rpc W} `{Ethers}.

(** The route of src/app/api/explain/route.ts when the data is not all
    there, for a well-formed hash: pool exhaustion on the transaction
    lookup (the receipt is then not asked for) or on the receipt lookup,
    and an address ethers rejects, give "Unable to analyze transaction";
    a missing transaction or a missing receipt gives "Transaction found".
    All these answers are locked. *)
Theorem explain_degraded (req : Request) (s : St W) :
  isTxHash (txParam req) = true ->
  let tx := txParam req in
  let unable :=
    mkExplain "Unable to analyze transaction" None
      "We couldn’t analyze this transaction right now. Please try again."
      (basescanUrl tx) false in
  let loading :=
    mkExplain "Transaction found" None
      "We found this transaction, but details are still loading. Try again shortly."
      (basescanUrl tx) false in
  (forall e s1,
      Explain.withAnyProvider (getTransaction tx) s = (inl e, s1) ->
      Explain.GET req s = (inr unable, s1))
  /\ (forall t e s1 s2,
      Explain.withAnyProvider (getTransaction tx) s = (inr t, s1) ->
      Explain.withAnyProvider (getTransactionReceipt tx) s1 = (inl e, s2) ->
      Explain.GET req s = (inr unable, s2))
  /\ (forall t r s1 s2,
      Explain.withAnyProvider (getTransaction tx) s = (inr t, s1) ->
      Explain.withAnyProvider (getTransactionReceipt tx) s1 = (inr r, s2) ->
      t = None \/ r = None ->
      Explain.GET req s = (inr loading, s2))
  /\ (forall t r e s1 s2,
      Explain.withAnyProvider (getTransaction tx) s = (inr (Some t), s1) ->
      Explain.withAnyProvider (getTransactionReceipt tx) s1 = (inr (Some r), s2) ->
      normalise (tx_from t) = inl e
      \/ (exists from, normalise (tx_from t) = inr from)
         /\ normalise (tx_to t) = inl e ->
      Explain.GET req s = (inr unable, s2)).
Proof.
  intros Hv tx unable loading. subst tx unable loading.
  unfold Explain.GET. fold (txParam req). rewrite (guard_accepts _ Hv).
  unfold tryCatch, bind, ret, liftE.
  split; [|split; [|split]].
  - intros e s1 ->. reflexivity.
  - intros t e s1 s2 -> ->. reflexivity.
  - intros t r s1 s2 -> -> [-> | ->]; [reflexivity|].
    now destruct t.
  - intros t r e s1 s2 -> -> [-> | [[from ->] ->]]; reflexivity.
Qed.

(** The route that consults [payTx] when the data is not all there, for a
    well-formed hash and any payment check: a missing transaction and a
    failure (pool exhaustion, rejected address) give "We can’t load
    details right now"; a transaction whose receipt is missing is still
    classified, with the dash for the fee, no contract touched, no transfer,
    no approval and the risk Low.  Every such answer carries the flag the
    payment check gave. *)
Theorem explain_paid_degraded (check : jsstr -> M W bool) (req : Request)
    (s : St W) :
  isTxHash (txParam req) = true ->
  let tx := txParam req in
  let flag :=
    if truthy (payTxParam req)
    then verdictOf (check (payTxParam req) s) else false in
  let s0 := snd (ExplainPaid.decideUnlock check (payTxParam req) s) in
  (forall r s1 s2,
      ExplainPaid.withAnyProvider (getTransaction tx) s0 = (inr None, s1) ->
      ExplainPaid.withAnyProvider (getTransactionReceipt tx) s1 = (inr r, s2) ->
      ExplainPaid.GET_with check req s
      = (inr (mkExplain "We can’t load details right now" (Some FeeDash)
                "This transaction may be real, but we couldn’t load its details at the moment. Open it on BaseScan and try again in a minute."
                (basescanUrl tx) flag), s2))
  /\ (forall t from to s1 s2,
      ExplainPaid.withAnyProvider (getTransaction tx) s0 = (inr (Some t), s1) ->
      ExplainPaid.withAnyProvider (getTransactionReceipt tx) s1 = (inr None, s2) ->
      normalise (tx_from t) = inr from ->
      normalise (tx_to t) = inr to ->
      ExplainPaid.GET_with check req s
      = (inr (mkExplain (summaryOf t) (Some FeeDash)
                (explanationLines from to (mkMetrics ∅ 0 0) Low)
                (basescanUrl tx) flag), s2))
  /\ (forall e s1,
      ExplainPaid.withAnyProvider (getTransaction tx) s0 = (inl e, s1) ->
      ExplainPaid.GET_with check req s
      = (inr (mkExplain "We can’t load details right now" (Some FeeDash)
                "We couldn’t load enough information at the moment. Open it on BaseScan and try again."
                (basescanUrl tx) flag), s1)).
Proof.
  intros Hv tx flag s0. subst tx flag s0.
  rewrite decideUnlock_value. cbn [snd].
  split; [|split].
  - intros r s1 s2 Htx Hrc.
    unfold ExplainPaid.GET_with. fold (txParam req). fold (payTxParam req).
    rewrite (guard_accepts _ Hv). unfold bind at 1.
    rewrite decideUnlock_value. unfold tryCatch, bind, ret, liftE.
    now rewrite Htx, Hrc.
  - intros t from to s1 s2 Htx Hrc Hfrom Hto.
    unfold ExplainPaid.GET_with. fold (txParam req). fold (payTxParam req).
    rewrite (guard_accepts _ Hv). unfold bind at 1.
    rewrite decideUnlock_value. unfold tryCatch, bind, ret, liftE.
    now rewrite Htx, Hrc, Hfrom, Hto.
  - intros e s1 Htx.
    unfold ExplainPaid.GET_with. fold (txParam req). fold (payTxParam req).
    rewrite (guard_accepts _ Hv). unfold bind at 1.
    rewrite decideUnlock_value. unfold tryCatch, bind, ret, liftE.
    now rewrite Htx.
Qed.

End ExplainDegraded.

(** ** The calls of the explain routes *)

Section ExplainCalls.
Context {W : Type} `{Rpc W} `{Ethers}.

Lemma isPaymentConfirmed_trace (payTx : jsstr) (s : St W) :
  exists calls,
    trace (snd (ExplainPaid.isPaymentConfirmed payTx s)) = (trace s ++ calls)%list
    /\ (length calls <= 8)%nat
    /\ Forall (isProbeOrReceiptOf payTx) calls
    /\ (isTxHash payTx = false -> calls = []).
Proof.
  unfold ExplainPaid.isPaymentConfirmed, bind, tryCatch, ret.
  destruct (isTxHash payTx); cbn [negb].
  - destruct (ExplainPaid.withAnyProvider (getTransactionReceipt payTx) s)
      as [r s1] eqn:Hscan.
    destruct (scan_calls "All providers failed" (getTransactionReceipt payTx)
                (fun u => CallReceipt u payTx) RPC_URLS None s r s1
                (getTransactionReceipt_single payTx) Hscan)
      as (calls & Ht & Hlen & Hall & _).
    exists calls. repeat split.
    + destruct r as [e|[receipt|]]; cbn [snd]; try exact Ht.
      destruct (negb (statusIsOne receipt)); exact Ht.
    + exact Hlen.
    + eapply List.Forall_impl; [|exact Hall].
      intros k (u & _ & [-> | ->]); cbn; auto.
    + discriminate.
  - exists []. cbn [snd]. rewrite app_nil_r.
    split; [reflexivity|]. split; [cbn; lia|]. split; [constructor|reflexivity].
Qed.

(** The lightweight check of the explain route never throws, asks nothing
    for a malformed reference (and answers false), and otherwise issues at
    most eight calls, each a liveness probe or a receipt query for the
    payment reference: it never asks for the network identifier, for the
    transaction, for the height or for logs. *)
Theorem isPaymentConfirmed_calls (payTx : jsstr) (s : St W) :
  exists b s' calls,
    ExplainPaid.isPaymentConfirmed payTx s = (inr b, s')
    /\ trace s' = (trace s ++ calls)%list
    /\ (length calls <= 8)%nat
    /\ Forall (isProbeOrReceiptOf payTx) calls
    /\ (isTxHash payTx = false -> b = false /\ calls = []).
Proof.
  destruct (isPaymentConfirmed_returns payTx s) as (b & s' & Hrun).
  destruct (isPaymentConfirmed_trace payTx s) as (calls & Ht & Hlen & Hall & Hbad).
  rewrite Hrun in Ht. cbn [snd] in Ht.
  exists b, s', calls.
  split; [exact Hrun|]. split; [exact Ht|]. split; [exact Hlen|].
  split; [exact Hall|].
  intros Hmal. split; [|exact (Hbad Hmal)].
  unfold ExplainPaid.isPaymentConfirmed in Hrun.
  rewrite Hmal in Hrun. cbn in Hrun. now injection Hrun as <- _.
Qed.

Lemma isPaymentConfirmed_within (payTx : jsstr) (s : St W) :
  within 8 s (snd (ExplainPaid.isPaymentConfirmed payTx s)).
Proof.
  destruct (isPaymentConfirmed_trace payTx s) as (calls & Ht & Hlen & _).
  exists calls. auto.
Qed.

(** The explain routes are bounded: the route of
    src/app/api/explain/route.ts issues at most 16 calls (the transaction
    and the receipt, each through the pool), the route that consults
    [payTx] at most 24 (the payment receipt first); a rejected hash costs
    none. *)
Theorem explain_call_budget (req : Request) (s : St W) :
  within 16 s (snd (Explain.GET req s))
  /\ within 24 s (snd (ExplainPaid.GET req s))
  /\ (isTxHash (txParam req) = false ->
      snd (Explain.GET req s) = s /\ snd (ExplainPaid.GET req s) = s).
Proof.
  split; [|split].
  - unfold Explain.GET, Explain.withAnyProvider. fold (txParam req).
    destruct (negb (truthy (txParam req)) || negb (isTxHash (txParam req)));
      [cbn [snd ret]; budget|].
    unfold tryCatch, bind, ret, liftE.
    destruct (withAnyProviderOver _ RPC_URLS (getTransaction (txParam req)) s)
      as [[e|transaction] s1] eqn:H1;
      pool_read H1 (fun u => CallTransaction u (txParam req))
        (getTransaction_single (txParam req)); cbn [snd]; [budget|].
    destruct (withAnyProviderOver _ RPC_URLS (getTransactionReceipt (txParam req)) s1)
      as [[e|receipt] s2] eqn:H2;
      pool_read H2 (fun u => CallReceipt u (txParam req))
        (getTransactionReceipt_single (txParam req)); cbn [snd]; [budget|].
    destruct transaction as [transaction|], receipt as [receipt|];
      cbn [snd]; try budget.
    destruct (normalise (tx_from transaction)); cbn [snd]; [budget|].
    destruct (normalise (tx_to transaction)); cbn [snd]; budget.
  - unfold ExplainPaid.GET, ExplainPaid.GET_with, ExplainPaid.withAnyProvider.
    fold (txParam req). fold (payTxParam req).
    destruct (negb (truthy (txParam req)) || negb (isTxHash (txParam req)));
      [cbn [snd ret]; budget|].
    unfold bind at 1. rewrite decideUnlock_value.
    assert (H0' : within 8 s
              (if truthy (payTxParam req)
               then snd (ExplainPaid.isPaymentConfirmed (payTxParam req) s)
               else s)).
    { destruct (truthy (payTxParam req));
        [apply isPaymentConfirmed_within|budget]. }
    set (s0 := if truthy (payTxParam req) then _ else s) in *.
    unfold tryCatch, bind, ret, liftE.
    destruct (withAnyProviderOver _ RPC_URLS (getTransaction (txParam req)) s0)
      as [[e|transaction] s1] eqn:H1;
      pool_read H1 (fun u => CallTransaction u (txParam req))
        (getTransaction_single (txParam req)); cbn [snd]; [budget|].
    destruct (withAnyProviderOver _ RPC_URLS (getTransactionReceipt (txParam req)) s1)
      as [[e|receipt] s2] eqn:H2;
      pool_read H2 (fun u => CallReceipt u (txParam req))
        (getTransactionReceipt_single (txParam req)); cbn [snd]; [budget|].
    destruct transaction as [transaction|]; cbn [snd]; [|budget].
    destruct (normalise (tx_from transaction)); cbn [snd]; [budget|].
    destruct (normalise (tx_to transaction)); cbn [snd]; budget.
  - intros Hbad. unfold Explain.GET, ExplainPaid.GET, ExplainPaid.GET_with.
    fold (txParam req). rewrite (guard_rejects _ Hbad). split; reflexivity.
Qed.

End ExplainCalls.

(** ** Algebra of the payment sum *)

Section PaymentAlgebra.
Context `{Ethers}.

Lemma qualifyingSum_perm (l l' : list Log) :
  Permutation l l' -> qualifyingSum l = qualifyingSum l'.
Proof.
  induction 1 as [|x l l' _ IH|x y l|l l' l'' _ IH1 _ IH2]; cbn.
  - reflexivity.
  - now rewrite IH.
  - destruct (qualifyingAmount x), (qualifyingAmount y); lia.
  - now rewrite IH1.
Qed.

(** The paid amount is additive and does not depend on the order of the
    logs: the amount of a concatenation is the sum of the amounts, no log
    gives 0, and permuted logs give the same amount.  Several transfers in
    one receipt therefore add up. *)
Theorem paid_amount_additive :
  getPaidAmountFromLogs [] = 0
  /\ (forall l1 l2,
        getPaidAmountFromLogs (l1 ++ l2)%list
        = getPaidAmountFromLogs l1 + getPaidAmountFromLogs l2)
  /\ (forall l l',
        Permutation l l' ->
        getPaidAmountFromLogs l = getPaidAmountFromLogs l').
Proof.
  split; [reflexivity|split].
  - intros l1 l2. rewrite !getPaidAmountFromLogs_qualifying.
    apply qualifyingSum_app.
  - intros l l' Hperm. rewrite !getPaidAmountFromLogs_qualifying.
    now apply qualifyingSum_perm.
Qed.

Lemma qualifyingAmount_unsigned (log : Log) (amount : Z) :
  unsignedValues H -> qualifyingAmount log = Some amount -> 0 <= amount.
Proof.
  intros Hu. unfold qualifyingAmount.
  destruct (equalIgnoringCase (log_address log) USDC_BASE); [|discriminate].
  destruct (parseLog [TransferEvent] (log_topics log) (log_data log))
    as [e| |d] eqn:Hp; try discriminate.
  destruct (ld_name d =? "Transfer")%string; [|discriminate].
  destruct (ld_to d) as [e|[to|]]; try discriminate.
  destruct (ld_value d) as [e|v] eqn:Hv; [discriminate|].
  destruct (equalIgnoringCase to PAYMENT_ADDRESS); [|discriminate].
  intros [= <-]. exact (Hu _ _ _ _ Hp Hv).
Qed.

Lemma qualifyingSum_unsigned (logs : list Log) :
  unsignedValues H -> 0 <= qualifyingSum logs.
Proof.
  intros Hu. induction logs as [|log rest IH]; cbn; [lia|].
  destruct (qualifyingAmount log) as [amount|] eqn:Hq; [|exact IH].
  pose proof (qualifyingAmount_unsigned log amount Hu Hq). lia.
Qed.

(** With a decoder that reports unsigned amounts, the paid amount is never
    negative and further logs never lower it: a list of logs that reaches
    the price still reaches it with any logs added, before or after. *)
Theorem paid_amount_monotone (logs before after : list Log) :
  unsignedValues H ->
  0 <= getPaidAmountFromLogs logs
  /\ getPaidAmountFromLogs logs
     <= getPaidAmountFromLogs (before ++ logs ++ after)%list
  /\ (PRICE_USDC_UNITS <= getPaidAmountFromLogs logs ->
      PRICE_USDC_UNITS <= getPaidAmountFromLogs (before ++ logs ++ after)%list).
Proof.
  intros Hu. rewrite !getPaidAmountFromLogs_qualifying, !qualifyingSum_app.
  pose proof (qualifyingSum_unsigned logs Hu).
  pose proof (qualifyingSum_unsigned before Hu).
  pose proof (qualifyingSum_unsigned after Hu).
  repeat split; lia.
Qed.

End PaymentAlgebra.

(** ** Algebra of the classifier *)

Section ClassifierAlgebra.
Context `{Ethers}.

Lemma classifyLog_comm (m : Metrics) (a b : Log) :
  classifyLog (classifyLog m a) b = classifyLog (classifyLog m b) a.
Proof.
  rewrite !classifyLog_step. cbn [touchedContracts tokenTransfers approvals].
  f_equal; [|lia|lia].
  destruct (nonEmpty (log_address a)), (nonEmpty (log_address b));
    try reflexivity.
  rewrite !(assoc_L (∪)). f_equal. apply (comm_L (∪)).
Qed.

Lemma fold_classifyLog_perm (l l' : list Log) :
  Permutation l l' ->
  forall m, fold_left classifyLog l m = fold_left classifyLog l' m.
Proof.
  induction 1 as [|x l l' _ IH|x y l|l l' l'' _ IH1 _ IH2]; intros m; cbn.
  - reflexivity.
  - apply IH.
  - now rewrite classifyLog_comm.
  - now rewrite IH1.
Qed.

(** The metrics of a receipt do not depend on the order of its logs. *)
Theorem classifier_order_independent (l l' : list Log) :
  Permutation l l' ->
  classifyLogs l = classifyLogs l'
  /\ riskOf (classifyLogs l) = riskOf (classifyLogs l').
Proof.
  intros Hperm.
  assert (Heq : classifyLogs l = classifyLogs l')
    by (unfold classifyLogs; now apply fold_classifyLog_perm).
  split; [exact Heq|now rewrite Heq].
Qed.

Lemma classifyLogs_value (logs : list Log) :
  classifyLogs logs
  = mkMetrics (emitters logs) (countDecoded "Transfer" logs)
      (countDecoded "Approval" logs).
Proof.
  unfold classifyLogs. rewrite fold_classifyLog.
  cbn [touchedContracts tokenTransfers approvals].
  now rewrite union_empty_l_L.
Qed.

Lemma emitters_size (logs : list Log) :
  (size (emitters logs) <= length logs)%nat.
Proof.
  induction logs as [|log rest IH].
  - change (emitters []) with (∅ : gset string). now rewrite size_empty.
  - rewrite emitters_cons. cbn [length].
    destruct (nonEmpty (log_address log)); [|lia].
    rewrite size_union_alt, size_singleton.
    assert (Hsub : (size (emitters rest ∖ {[toLowerCase (log_address log)]})
                    <= size (emitters rest))%nat).
    { apply subseteq_size. intros y Hy.
      apply elem_of_difference in Hy. tauto. }
    lia.
Qed.

Lemma counts_disjoint (logs : list Log) :
  (countDecoded "Transfer" logs + countDecoded "Approval" logs <= length logs)%nat.
Proof.
  induction logs as [|log rest IH]; [cbn; lia|].
  rewrite !countDecoded_cons. cbn [length].
  destruct (decodesAs "Transfer" log) eqn:Ht.
  - rewrite (decodesAs_exclusive' log Ht). lia.
  - destruct (decodesAs "Approval" log); lia.
Qed.

(** The counters are bounded by the receipt: a log is counted at most once
    (as a Transfer or as an Approval, never as both), and the receipt
    touches at most as many contracts as it has logs. *)
Theorem classifier_bounds (logs : list Log) :
  (tokenTransfers (classifyLogs logs) + approvals (classifyLogs logs)
   <= length logs)%nat
  /\ (size (touchedContracts (classifyLogs logs)) <= length logs)%nat.
Proof.
  rewrite classifyLogs_value. cbn [tokenTransfers approvals touchedContracts].
  split; [apply counts_disjoint|apply emitters_size].
Qed.

Lemma countDecoded_pos (name : string) (logs : list Log) :
  (0 < countDecoded name logs)%nat
  <-> exists log, In log logs /\ decodesAs name log = true.
Proof.
  induction logs as [|log rest IH].
  - cbn. split; [lia|now intros (log & [] & _)].
  - rewrite countDecoded_cons. split.
    + intros Hpos. destruct (decodesAs name log) eqn:Hd.
      * exists log. split; [now left|exact Hd].
      * apply IH in Hpos as (log' & Hin & Hd'). exists log'.
        split; [now right|exact Hd'].
    + intros (log' & [<-|Hin] & Hd).
      * rewrite Hd. lia.
      * assert (0 < countDecoded name rest)%nat by (apply IH; eauto). lia.
Qed.

(** The risk is Medium exactly when some log of the receipt decodes as an
    Approval, however many contracts and transfers there are; a receipt
    without logs is Low. *)
Theorem risk_medium_iff_approval (logs : list Log) :
  (riskOf (classifyLogs logs) = Medium
   <-> exists log, In log logs /\ decodesAs "Approval" log = true)
  /\ riskOf (classifyLogs []) = Low.
Proof.
  split; [|reflexivity].
  rewrite <- countDecoded_pos, classifyLogs_value.
  unfold riskOf. cbn [approvals touchedContracts].
  destruct (Nat.ltb_spec 0 (countDecoded "Approval" logs)).
  - tauto.
  - split; [|lia]. destruct (1 <? size (emitters logs))%nat; discriminate.
Qed.

(** Contracts are told apart ignoring case: a second log whose address
    matches that of the first letter by letter, ignoring case, adds no
    contract. *)
Theorem touched_ignores_case (a b : Log) (rest : list Log) :
  equalIgnoringCase (log_address a) (log_address b) = true ->
  touchedContracts (classifyLogs (a :: b :: rest))
  = touchedContracts (classifyLogs (a :: rest)).
Proof.
  rewrite equalIgnoringCase_lower, String.eqb_eq. intros Hsame.
  rewrite !classifyLogs_value. cbn [touchedContracts].
  rewrite !emitters_cons.
  assert (Hne : nonEmpty (log_address b) = nonEmpty (log_address a)).
  { destruct (log_address a), (log_address b); try reflexivity;
      discriminate Hsame. }
  rewrite Hne, Hsame.
  destruct (nonEmpty (log_address a)); [|reflexivity].
  rewrite (assoc_L (∪)). f_equal. apply union_idemp_L.
Qed.

End ClassifierAlgebra.

(** ** Trimming of the request parameters *)

Lemma trimStart_blank (ws x : jsstr) :
  blank ws -> trimStart (ws ++ x)%list = trimStart x.
Proof.
  induction 1 as [|c ws Hc _ IH]; [reflexivity|].
  cbn [app trimStart]. now rewrite Hc.
Qed.

Lemma trimStart_empty_blank (x : jsstr) : trimStart x = [] -> blank x.
Proof.
  induction x as [|c x IH]; [constructor|].
  cbn [trimStart]. destruct (isWhiteSpace c) eqn:Hc; [|discriminate].
  intros Hx. constructor; [exact Hc|exact (IH Hx)].
Qed.

Lemma trimStart_app (x y : jsstr) :
  trimStart x <> [] -> trimStart (x ++ y)%list = (trimStart x ++ y)%list.
Proof.
  induction x as [|c x IH]; [now intros []|].
  cbn [app trimStart]. destruct (isWhiteSpace c); [exact IH|reflexivity].
Qed.

Lemma blank_app (x y : jsstr) : blank x -> blank y -> blank (x ++ y)%list.
Proof. unfold blank. intros Hx Hy. apply Forall_app. now split. Qed.

Lemma blank_rev (x : jsstr) : blank x -> blank (rev x).
Proof. unfold blank. intros Hx. now apply Forall_rev. Qed.

Lemma trimEnd_blank (x ws : jsstr) :
  blank ws -> trimEnd (x ++ ws)%list = trimEnd x.
Proof.
  intros Hws. unfold trimEnd. rewrite rev_app_distr.
  now rewrite (trimStart_blank (rev ws) (rev x) (blank_rev ws Hws)).
Qed.

Lemma trim_padded (ws1 p ws2 : jsstr) :
  blank ws1 -> blank ws2 -> trim (ws1 ++ p ++ ws2)%list = trim p.
Proof.
  intros H1 H2. unfold trim. rewrite (trimStart_blank ws1 _ H1).
  destruct (trimStart p) as [|c r] eqn:Hp.
  - pose proof (trimStart_empty_blank p Hp) as Hblank.
    pose proof (trimStart_blank (p ++ ws2)%list [] (blank_app _ _ Hblank H2)) as Hall.
    rewrite app_nil_r in Hall. rewrite Hall. reflexivity.
  - rewrite trimStart_app by (rewrite Hp; discriminate).
    rewrite Hp. now apply trimEnd_blank.
Qed.

Lemma hex_is_low (c : N) : isHexDigit c = true -> In c lowUnits.
Proof.
  intros Hc. unfold lowUnits. rewrite <- (N2Nat.id c).
  apply List.in_map, List.in_seq.
  assert (c <= 102)%N; [|lia].
  unfold isHexDigit in Hc.
  repeat match type of Hc with
         | (_ || _) = true => apply Bool.orb_true_iff in Hc as [Hc|Hc]
         | (_ && _) = true => apply Bool.andb_true_iff in Hc as [? Hc]
         end;
    apply N.leb_le in Hc; lia.
Qed.

Lemma hex_not_blank_table :
  forallb (fun c => implb (isHexDigit c) (negb (isWhiteSpace c))) lowUnits = true.
Proof. vm_compute. reflexivity. Qed.

Lemma hex_not_blank (c : N) : isHexDigit c = true -> isWhiteSpace c = false.
Proof.
  intros Hc. pose proof hex_not_blank_table as Ht.
  rewrite List.forallb_forall in Ht.
  specialize (Ht c (hex_is_low c Hc)). rewrite Hc in Ht. cbn in Ht.
  now destruct (isWhiteSpace c).
Qed.

(** The shape of an accepted hash. *)
Lemma isTxHash_shape (h : jsstr) :
  isTxHash h = true ->
  exists digits,
    h = 48%N :: 120%N :: digits
    /\ length digits = 64%nat
    /\ Forall (fun c => isHexDigit c = true) digits.
Proof.
  unfold isTxHash.
  destruct h as [|c0 [|c1 digits]].
  - discriminate.
  - destruct c0 as [|p]; [discriminate|].
    do 6 (try (destruct p as [p|p|]; try discriminate)).
  - destruct c0 as [|p]; [discriminate|].
    do 6 (try (destruct p as [p|p|]; try discriminate)).
    destruct c1 as [|q]; [discriminate|].
    do 7 (try (destruct q as [q|q|]; try discriminate)).
    intros Hv. apply Bool.andb_true_iff in Hv as [Hlen Hhex].
    exists digits. split; [reflexivity|]. split.
    + now apply Nat.eqb_eq.
    + apply List.Forall_forall. now apply List.forallb_forall.
Qed.

(** A well-formed hash has no white space at its ends: trimming leaves it
    as it is. *)
Lemma trim_hash (h : jsstr) : isTxHash h = true -> trim h = h.
Proof.
  intros Hv. destruct (isTxHash_shape h Hv) as (digits & -> & Hlen & Hhex).
  unfold trim.
  change (trimStart (48%N :: 120%N :: digits)) with (48%N :: 120%N :: digits).
  unfold trimEnd.
  assert (Hfix : trimStart (rev (48%N :: 120%N :: digits))
                 = rev (48%N :: 120%N :: digits)).
  { cbn [rev]. destruct (rev digits) as [|c r] eqn:Hr.
    - apply (f_equal (@length N)) in Hr. rewrite List.length_rev in Hr.
      cbn in Hr. lia.
    - cbn [app trimStart]. rewrite hex_not_blank; [reflexivity|].
      rewrite List.Forall_forall in Hhex. apply Hhex.
      apply List.in_rev. rewrite Hr. now left. }
  rewrite Hfix. apply rev_involutive.
Qed.

Lemma payTxParam_verifyRequest (p : jsstr) :
  payTxParam (verifyRequest p) = trim p.
Proof.
  unfold payTxParam, verifyRequest. cbn [searchParams_get].
  now rewrite decide_True by reflexivity.
Qed.

Lemma txParam_explainRequest (tx : jsstr) (payTx : option jsstr) :
  txParam (explainRequest tx payTx) = trim tx.
Proof.
  unfold txParam, explainRequest.
  destruct payTx; cbn [searchParams_get]; now rewrite decide_True by reflexivity.
Qed.

Lemma payTxParam_explainRequest (tx p : jsstr) :
  payTxParam (explainRequest tx (Some p)) = trim p.
Proof.
  unfold payTxParam, explainRequest. cbn [searchParams_get].
  rewrite decide_False by (vm_compute; discriminate).
  now rewrite decide_True by reflexivity.
Qed.

Section PaddingFacts.
Context {W : Type} `{Rpc W} `{Ethers}.

Lemma verify_GET_param (req1 req2 : Request) (s : St W) :
  payTxParam req1 = payTxParam req2 ->
  VerifyPayment.GET req1 s = VerifyPayment.GET req2 s
  /\ VerifyPaymentConf.GET req1 s = VerifyPaymentConf.GET req2 s.
Proof.
  intros Hp. unfold VerifyPayment.GET, VerifyPaymentConf.GET.
  fold (payTxParam req1). fold (payTxParam req2). now rewrite Hp.
Qed.

Lemma explain_GET_param (req1 req2 : Request) (s : St W) :
  txParam req1 = txParam req2 ->
  payTxParam req1 = payTxParam req2 ->
  Explain.GET req1 s = Explain.GET req2 s
  /\ ExplainPaid.GET req1 s = ExplainPaid.GET req2 s.
Proof.
  intros Ht Hp. unfold Explain.GET, ExplainPaid.GET, ExplainPaid.GET_with.
  fold (txParam req1). fold (txParam req2).
  fold (payTxParam req1). fold (payTxParam req2). now rewrite Ht, Hp.
Qed.

(** White space around a parameter is ignored by the four routes: a
    request whose [tx] and [payTx] are padded with white space on either
    side is answered exactly as the request without the padding; and a
    padded well-formed payment hash is verified as that hash. *)
Theorem padding_is_ignored (ws1 ws2 ws3 ws4 tx p : jsstr) (s : St W) :
  blank ws1 -> blank ws2 -> blank ws3 -> blank ws4 ->
  VerifyPayment.GET (verifyRequest (ws1 ++ p ++ ws2)%list) s
  = VerifyPayment.GET (verifyRequest p) s
  /\ VerifyPaymentConf.GET (verifyRequest (ws1 ++ p ++ ws2)%list) s
     = VerifyPaymentConf.GET (verifyRequest p) s
  /\ Explain.GET (explainRequest (ws3 ++ tx ++ ws4)%list None) s
     = Explain.GET (explainRequest tx None) s
  /\ ExplainPaid.GET
       (explainRequest (ws3 ++ tx ++ ws4)%list (Some (ws1 ++ p ++ ws2)%list)) s
     = ExplainPaid.GET (explainRequest tx (Some p)) s
  /\ (isTxHash p = true ->
      VerifyPayment.GET (verifyRequest (ws1 ++ p ++ ws2)%list) s
      = (let* result := VerifyPayment.verify p in ret (mkHttp 200 result)) s).
Proof.
  intros H1 H2 H3 H4.
  split; [|split; [|split; [|split]]].
  - apply verify_GET_param.
    now rewrite !payTxParam_verifyRequest, trim_padded.
  - apply verify_GET_param.
    now rewrite !payTxParam_verifyRequest, trim_padded.
  - apply explain_GET_param.
    + now rewrite !txParam_explainRequest, trim_padded.
    + reflexivity.
  - apply explain_GET_param.
    + now rewrite !txParam_explainRequest, trim_padded.
    + now rewrite !payTxParam_explainRequest, trim_padded.
  - intros Hv. unfold VerifyPayment.GET.
    fold (payTxParam (verifyRequest (ws1 ++ p ++ ws2)%list)).
    rewrite payTxParam_verifyRequest, trim_padded, (trim_hash p Hv), Hv by assumption.
    reflexivity.
Qed.

End PaddingFacts.

(** ** The receipt gate of the two payment checks *)

Section ReceiptGate.
Context {W : Type} `{Rpc W} `{Ethers}.

Lemma statusIsOne_false (receipt : TransactionReceipt) :
  rc_status receipt <> Some 1 -> statusIsOne receipt = false.
Proof.
  intros Hne. destruct (statusIsOne receipt) eqn:Hs; [|reflexivity].
  now apply statusIsOne_true in Hs.
Qed.

(** A receipt whose status is not 1 (a reverted or a status-less
    transaction) is never a payment, whatever its logs hold: both verify
    routes answer FAILED in the state the receipt query left (the route
    with [MIN_CONFIRMATIONS] does not ask for the height), and the
    lightweight check of the explain route answers false. *)
Theorem failed_receipt_is_failed (txHash : jsstr) (s s1 s2 s' : St W)
    (receipt : TransactionReceipt) :
  rc_status receipt <> Some 1 ->
  (VerifyPayment.withAnyProvider getNetwork s = (inr BASE_CHAIN_ID, s1) ->
   VerifyPayment.withAnyProvider (getTransactionReceipt txHash) s1
   = (inr (Some receipt), s2) ->
   let failed := mkPayment false FAILED None "Transaction failed." in
   VerifyPayment.verify txHash s = (inr failed, s2)
   /\ VerifyPaymentConf.verify txHash s = (inr failed, s2))
  /\ (isTxHash txHash = true ->
      ExplainPaid.withAnyProvider (getTransactionReceipt txHash) s
      = (inr (Some receipt), s') ->
      ExplainPaid.isPaymentConfirmed txHash s = (inr false, s')).
Proof.
  intros Hne. pose proof (statusIsOne_false receipt Hne) as Hs. split.
  - intros Hnet Hrc. cbv zeta.
    unfold VerifyPayment.withAnyProvider in *.
    split; [unfold VerifyPayment.verify, VerifyPayment.withAnyProvider
           |unfold VerifyPaymentConf.verify, VerifyPaymentConf.withAnyProvider];
      unfold bind, tryCatch, ret;
      rewrite Hnet, Z.eqb_refl; cbn [negb]; rewrite Hrc, Hs; reflexivity.
  - intros Hv Hrc. unfold ExplainPaid.isPaymentConfirmed, bind, tryCatch, ret.
    rewrite Hv. cbn [negb]. now rewrite Hrc, Hs.
Qed.

(** On the accepted network and for the same receipt, the lightweight
    check of the explain route and the verify route of
    src/app/api/verify-payment/route.ts agree: the check answers true
    exactly when [verify] answers CONFIRMED. *)
Theorem lightweight_agrees_with_verify (payTx : jsstr) (s s1 s2 s' : St W)
    (receipt : TransactionReceipt) :
  isTxHash payTx = true ->
  VerifyPayment.withAnyProvider getNetwork s = (inr BASE_CHAIN_ID, s1) ->
  VerifyPayment.withAnyProvider (getTransactionReceipt payTx) s1
  = (inr (Some receipt), s2) ->
  ExplainPaid.withAnyProvider (getTransactionReceipt payTx) s
  = (inr (Some receipt), s') ->
  verdictOf (ExplainPaid.isPaymentConfirmed payTx s) = true
  <-> statusOf (VerifyPayment.verify payTx s) = Some CONFIRMED.
Proof.
  intros Hv Hnet Hrc Hrc'.
  unfold verdictOf, statusOf.
  unfold ExplainPaid.isPaymentConfirmed, VerifyPayment.verify, bind, tryCatch, ret.
  rewrite Hv, Hnet, Z.eqb_refl. cbn [negb]. rewrite Hrc, Hrc'.
  destruct (statusIsOne receipt); cbn [negb fst].
  - unfold getPaidAmountFromLogs. cbv zeta.
    destruct (PRICE_USDC_UNITS <=? fold_left addPayment (rc_logs receipt) 0);
      cbn [fst status]; split; congruence.
  - cbn [status]. split; discriminate.
Qed.

End ReceiptGate.

(** ** The display helpers of the page *)

Lemma sliceLast_length (n : nat) (s : jsstr) :
  length (Page.sliceLast n s) = Nat.min n (length s).
Proof. unfold Page.sliceLast. rewrite List.length_skipn. lia. Qed.

Lemma trim_blank (h : jsstr) : blank h -> trim h = [].
Proof.
  intros Hb. unfold trim.
  pose proof (trimStart_blank h [] Hb) as Hs. rewrite app_nil_r in Hs.
  now rewrite Hs.
Qed.

(** [shortHash] of the page: the result is never longer than 19 code
    units; a blank input gives the empty string; a trimmed input of at most
    18 code units is shown whole; a well-formed transaction hash is shown
    as its first ten code units, the ellipsis and its last eight. *)
Theorem shortHash_spec (h : jsstr) :
  (length (Page.shortHash h) <= 19)%nat
  /\ (blank h -> Page.shortHash h = [])
  /\ ((length (trim h) <= 18)%nat -> Page.shortHash h = trim h)
  /\ (isTxHash h = true ->
      Page.shortHash h = (firstn 10 h ++ [Page.ELLIPSIS] ++ skipn 58 h)%list).
Proof.
  unfold Page.shortHash. cbv zeta. split; [|split; [|split]].
  - destruct (trim h) as [|c v] eqn:Ht; [cbn; lia|].
    cbn [truthy negb].
    destruct (Nat.leb_spec (length (c :: v)) 18) as [Hle|Hgt]; [lia|].
    rewrite !length_app, List.length_firstn, sliceLast_length. cbn [length]. lia.
  - intros Hb. now rewrite (trim_blank h Hb).
  - intros Hle. destruct (trim h) as [|c v]; [reflexivity|].
    cbn [truthy negb]. apply Nat.leb_le in Hle. now rewrite Hle.
  - intros Hv. rewrite (trim_hash h Hv).
    destruct (isTxHash_shape h Hv) as (digits & -> & Hlen & _).
    cbn [truthy negb length]. rewrite Hlen.
    change (66 <=? 18)%nat with false. cbv iota.
    unfold Page.sliceLast. cbn [length]. rewrite Hlen. reflexivity.
Qed.

(** [shortAddr] of the page: the result is never longer than 11 code
    units; an input of at most four code units appears twice, around the
    ellipsis; of an input of at least ten code units the result keeps the
    first six and the last four, which do not overlap. *)
Theorem shortAddr_spec (a : jsstr) :
  (length (Page.shortAddr a) <= 11)%nat
  /\ ((length a <= 4)%nat ->
      Page.shortAddr a = (a ++ [Page.ELLIPSIS] ++ a)%list)
  /\ ((10 <= length a)%nat ->
      length (Page.shortAddr a) = 11%nat
      /\ exists middle,
           a = (firstn 6 a ++ middle ++ Page.sliceLast 4 a)%list).
Proof.
  unfold Page.shortAddr. split; [|split].
  - rewrite !length_app, List.length_firstn, sliceLast_length. cbn [length]. lia.
  - intros Hle. unfold Page.sliceLast.
    replace (length a - 4)%nat with 0%nat by lia.
    rewrite List.firstn_all2 by lia. reflexivity.
  - intros Hge. split.
    + rewrite !length_app, List.length_firstn, sliceLast_length. cbn [length]. lia.
    + exists (skipn 6 (firstn (length a - 4) a)). unfold Page.sliceLast.
      rewrite app_assoc.
      replace (firstn 6 a) with (firstn 6 (firstn (length a - 4) a)).
      * now rewrite !List.firstn_skipn.
      * rewrite List.firstn_firstn. f_equal. lia.
Qed.

(** ** Concrete runs of the further properties *)

Ltac run := vm_compute; reflexivity.

(** The second endpoint answers: the third, on another network, is never
    asked. *)
Lemma first_answer_wins_run :
  VerifyPayment.withAnyProvider getNetwork (start secondAlive)
  = (inr 8453,
     mkSt secondAlive
       [ CallBlockNumber "https://base.publicnode.com";
         CallBlockNumber "https://mainnet.base.org";
         CallNetwork "https://mainnet.base.org" ]).
Proof.
  apply (@first_answer_wins Pool staticPool Z "All RPC providers failed"
           getNetwork ["https://base.publicnode.com"] "https://mainnet.base.org"
           ["https://base.llamarpc.com"; "https://1rpc.io/base"]
           (start secondAlive)
           (mkSt secondAlive [CallBlockNumber "https://base.publicnode.com"])
           _ (Some (RpcFault "https://base.publicnode.com")) 8453).
  - eapply allThrow_cons; [run|apply allThrow_nil].
  - run.
Defined.

(** The network query on a dead pool: four probes, no read. *)
Lemma withAnyProvider_calls_run :
  exists calls,
    trace (snd (withAnyProviderOver "All RPC providers failed" RPC_URLS
                  getNetwork (start allDown)))
    = (trace (start allDown) ++ calls)%list
    /\ (length calls <= 2 * length RPC_URLS)%nat
    /\ Forall (fun k => exists u, In u RPC_URLS
                          /\ (k = CallBlockNumber u \/ k = CallNetwork u)) calls
    /\ exists rest, calls = CallBlockNumber "https://base.publicnode.com" :: rest.
Proof.
  exact (@withAnyProvider_calls Pool staticPool Z "All RPC providers failed"
           RPC_URLS getNetwork CallNetwork (start allDown) getNetwork_single).
Defined.

(** An unknown payment is NOT_FOUND; a payment still in the mempool is
    PENDING. *)
Lemma verify_without_receipt_run :
  fst (VerifyPayment.verify payHash (start (lastAlive emptyNode)))
  = inr (mkPayment true NOT_FOUND None "Transaction not found yet.")
  /\ fst (VerifyPaymentConf.verify payHash (start (lastAlive mempoolNode)))
     = inr (mkPayment true PENDING None "Transaction is still pending.").
Proof.
  split.
  - pose (s := start (lastAlive emptyNode)).
    pose (s1 := snd (VerifyPayment.withAnyProvider getNetwork s)).
    pose (s2 := snd (VerifyPayment.withAnyProvider (getTransactionReceipt payHash) s1)).
    pose (s3 := snd (VerifyPayment.withAnyProvider (getTransaction payHash) s2)).
    assert (Hnet : VerifyPayment.withAnyProvider getNetwork s
                   = (inr BASE_CHAIN_ID, s1)) by run.
    assert (Hrc : VerifyPayment.withAnyProvider (getTransactionReceipt payHash) s1
                  = (inr None, s2)) by run.
    assert (Htx : VerifyPayment.withAnyProvider (getTransaction payHash) s2
                  = (inr None, s3)) by run.
    destruct (proj1 (verify_without_receipt payHash s s1 s2 s3 (inr None)
                       Hnet Hrc (or_introl eq_refl)) Htx) as [Hv _].
    fold s. now rewrite Hv.
  - pose (s := start (lastAlive mempoolNode)).
    pose (s1 := snd (VerifyPayment.withAnyProvider getNetwork s)).
    pose (s2 := snd (VerifyPayment.withAnyProvider (getTransactionReceipt payHash) s1)).
    pose (s3 := snd (VerifyPayment.withAnyProvider (getTransaction payHash) s2)).
    assert (Hnet : VerifyPayment.withAnyProvider getNetwork s
                   = (inr BASE_CHAIN_ID, s1)) by run.
    assert (Hrc : VerifyPayment.withAnyProvider (getTransactionReceipt payHash) s1
                  = (inr None, s2)) by run.
    assert (Htx : VerifyPayment.withAnyProvider (getTransaction payHash) s2
                  = (inr (Some unminedPayment), s3)) by run.
    destruct (proj2 (verify_without_receipt payHash s s1 s2 s3 (inr None)
                       Hnet Hrc (or_introl eq_refl))
                unminedPayment Htx (or_introl eq_refl)) as [_ Hv].
    fold s. now rewrite Hv.
Defined.

(** A node without receipts confirms the mined payment from the logs of
    block 101. *)
Lemma verify_logs_fallback_run :
  fst (VerifyPayment.verify payHash (start (lastAlive laggingNode)))
  = inr (mkPayment true CONFIRMED (Some 3000000)
           "Payment confirmed (logs fallback).")
  /\ fst (VerifyPaymentConf.verify payHash (start (lastAlive laggingNode)))
     = inr (mkPayment true CONFIRMED (Some 3000000)
              "Payment confirmed (logs fallback).").
Proof.
  pose (s := start (lastAlive laggingNode)).
  pose (s1 := snd (VerifyPayment.withAnyProvider getNetwork s)).
  pose (s2 := snd (VerifyPayment.withAnyProvider (getTransactionReceipt payHash) s1)).
  pose (s3 := snd (VerifyPayment.withAnyProvider (getTransaction payHash) s2)).
  pose (s4 := snd (VerifyPayment.withAnyProvider (getLogs (fallbackFilter 101)) s3)).
  assert (Hnet : VerifyPayment.withAnyProvider getNetwork s
                 = (inr BASE_CHAIN_ID, s1)) by run.
  assert (Hrc : VerifyPayment.withAnyProvider (getTransactionReceipt payHash) s1
                = (inr None, s2)) by run.
  assert (Htx : VerifyPayment.withAnyProvider (getTransaction payHash) s2
                = (inr (Some minedPayment), s3)) by run.
  assert (Hlogs : VerifyPayment.withAnyProvider
                    (getLogs (mkFilter 101 101 USDC_BASE
                       [Some TRANSFER_TOPIC; None;
                        Some "0x0000000000000000000000003b5ca729ae7d427616873f5cd0b9418243090c4c"]))
                    s3 = (inr [usdcTransfer threeUSDC], s4)) by run.
  assert (Hbn : (101 : Z) <> 0) by discriminate.
  destruct (verify_logs_fallback payHash s s1 s2 s3 s4 (inr None) minedPayment
              101 [usdcTransfer threeUSDC] Hnet Hrc (or_introl eq_refl) Htx
              eq_refl Hbn Hlogs) as [Hv1 Hv2].
  fold s. rewrite Hv1, Hv2. split; run.
Defined.

(** With every endpoint down, [verify] and [GET] throw the error of the
    last endpoint. *)
Lemma verify_throws_on_exhaustion_run :
  fst (VerifyPayment.verify payHash (start allDown))
  = inl (RpcFault "https://1rpc.io/base")
  /\ fst (VerifyPayment.GET (verifyRequest payHash) (start allDown))
     = inl (RpcFault "https://1rpc.io/base").
Proof.
  pose (s1 := snd (VerifyPayment.withAnyProvider getNetwork (start allDown))).
  assert (Hnet : VerifyPayment.withAnyProvider getNetwork (start allDown)
                 = (inl (RpcFault "https://1rpc.io/base"), s1)) by run.
  destruct (proj1 (@verify_throws_on_exhaustion Pool staticPool abiDecoder
                     payHash (start allDown) (RpcFault "https://1rpc.io/base"))
              s1 Hnet) as (Hv & _ & Hget).
  split.
  - now rewrite Hv.
  - destruct (Hget (verifyRequest payHash) ltac:(run) ltac:(run)) as [Hg _].
    now rewrite Hg.
Defined.

(** The body returned for the confirmed payment is consistent, with HTTP
    status 200. *)
Lemma verify_response_consistent_run :
  consistentResult (mkPayment true CONFIRMED (Some 3000000) "Payment confirmed.")
  /\ http_status (mkHttp 200 (mkPayment true CONFIRMED (Some 3000000)
                               "Payment confirmed.")) = 200.
Proof.
  pose (s := start (lastAlive baseNode)).
  pose (s' := snd (VerifyPayment.GET (verifyRequest payHash) s)).
  assert (Hget : VerifyPayment.GET (verifyRequest payHash) s
                 = (inr (mkHttp 200 (mkPayment true CONFIRMED (Some 3000000)
                                       "Payment confirmed.")), s')) by run.
  destruct (@verify_response_consistent Pool staticPool abiDecoder
              (verifyRequest payHash) s s' _ (or_introl Hget))
    as (Hc & _ & Hok).
  split; [exact Hc|]. apply Hok. run.
Defined.

Lemma hexDigitValue_nonneg (a : ascii) (d : Z) :
  hexDigitValue a = Some d -> 0 <= d.
Proof.
  unfold hexDigitValue.
  destruct ((48 <=? _) && _) eqn:H1.
  - apply Bool.andb_true_iff in H1 as [H1 _]. apply Z.leb_le in H1.
    intros [= <-]. lia.
  - destruct ((65 <=? _) && _) eqn:H2.
    + apply Bool.andb_true_iff in H2 as [H2 _]. apply Z.leb_le in H2.
      intros [= <-]. lia.
    + destruct ((97 <=? _) && _) eqn:H3; [|discriminate].
      apply Bool.andb_true_iff in H3 as [H3 _]. apply Z.leb_le in H3.
      intros [= <-]. lia.
Qed.

Lemma hexValueFrom_nonneg (s : string) (acc v : Z) :
  0 <= acc -> hexValueFrom acc s = Some v -> 0 <= v.
Proof.
  revert acc. induction s as [|a s IH]; intros acc Hacc; cbn.
  - now intros [= <-].
  - destruct (hexDigitValue a) as [d|] eqn:Hd; [|discriminate].
    apply IH. pose proof (hexDigitValue_nonneg a d Hd). lia.
Qed.

(** The positional decoder reports unsigned amounts. *)
Lemma abiDecoder_unsigned : unsignedValues abiDecoder.
Proof.
  intros topics data d v. cbn [parseLog abiDecoder]. unfold abiParseLog.
  destruct topics as [|t0 indexed]; [discriminate|].
  destruct (List.find _ _) as [f|]; [|discriminate].
  destruct indexed as [|a [|b rest]]; try discriminate;
    destruct (uintOfData data) as [u|] eqn:Hu; try discriminate.
  intros [= <-] Hv.
  assert (Hval : v = u) by (destruct f; cbn in Hv; congruence).
  subst v. unfold uintOfData in Hu.
  destruct (_ && _); [|discriminate].
  now apply (hexValueFrom_nonneg _ 0 u) in Hu.
Qed.

(** The link of a rejected request reflects the parameter. *)
Lemma explain_link_run :
  basescan (mkExplain "Paste a transaction hash" (Some FeeDash)
              "Enter a valid Base transaction hash (0x...) and press Explain."
              (basescanUrl (lit "0x12")) false)
  = (lit "https://basescan.org/tx/" ++ lit "0x12")%list.
Proof.
  pose (s := start (lastAlive baseNode)).
  pose (req := explainRequest (lit "0x12") None).
  assert (Hget : ExplainPaid.GET_with ExplainPaid.isPaymentConfirmed req s
                 = (inr (mkExplain "Paste a transaction hash" (Some FeeDash)
                           "Enter a valid Base transaction hash (0x...) and press Explain."
                           (basescanUrl (lit "0x12")) false), s)) by run.
  destruct (@explain_link Pool staticPool abiDecoder req s s _
              (or_intror (ex_intro _ ExplainPaid.isPaymentConfirmed Hget)))
    as [[Hempty _]|[_ Hlink]].
  - vm_compute in Hempty. discriminate Hempty.
  - rewrite Hlink. run.
Defined.

(** A dead pool gives "Unable to analyze transaction"; a node that knows
    nothing gives "Transaction found". *)
Lemma explain_degraded_run :
  fst (Explain.GET (explainRequest targetHash None) (start allDown))
  = inr (mkExplain "Unable to analyze transaction" None
           "We couldn’t analyze this transaction right now. Please try again."
           (basescanUrl targetHash) false)
  /\ fst (Explain.GET (explainRequest targetHash None) (start (lastAlive emptyNode)))
     = inr (mkExplain "Transaction found" None
              "We found this transaction, but details are still loading. Try again shortly."
              (basescanUrl targetHash) false).
Proof.
  set (req := explainRequest targetHash None).
  assert (Hv : isTxHash (txParam req) = true) by run.
  split.
  - set (s := start allDown).
    pose (s1 := snd (Explain.withAnyProvider (getTransaction (txParam req)) s)).
    assert (Htx : Explain.withAnyProvider (getTransaction (txParam req)) s
                  = (inl (RpcFault "https://1rpc.io/base"), s1)) by run.
    rewrite (proj1 (@explain_degraded Pool staticPool abiDecoder req s Hv) _ s1 Htx).
    run.
  - set (s := start (lastAlive emptyNode)).
    pose (s1 := snd (Explain.withAnyProvider (getTransaction (txParam req)) s)).
    pose (s2 := snd (Explain.withAnyProvider
                       (getTransactionReceipt (txParam req)) s1)).
    assert (Htx : Explain.withAnyProvider (getTransaction (txParam req)) s
                  = (inr None, s1)) by run.
    assert (Hrc : Explain.withAnyProvider (getTransactionReceipt (txParam req)) s1
                  = (inr None, s2)) by run.
    rewrite (proj1 (proj2 (proj2 (@explain_degraded Pool staticPool abiDecoder
                                    req s Hv)))
               None None s1 s2 Htx Hrc (or_introl eq_refl)).
    run.
Defined.

(** A node that has the transaction but no receipt: the route that
    consults [payTx] still classifies it, with the dash for the fee and the
    risk Low. *)
Lemma explain_paid_degraded_run :
  fst (ExplainPaid.GET (explainRequest targetHash None)
         (start (lastAlive laggingNode)))
  = inr (mkExplain "ETH transfer" (Some FeeDash)
           (explanationLines (Some payer) (Some WETH) (mkMetrics ∅ 0 0) Low)
           (basescanUrl targetHash) false).
Proof.
  set (req := explainRequest targetHash None).
  set (s := start (lastAlive laggingNode)).
  pose (s0 := snd (ExplainPaid.decideUnlock ExplainPaid.isPaymentConfirmed
                     (payTxParam req) s)).
  pose (s1 := snd (ExplainPaid.withAnyProvider (getTransaction (txParam req)) s0)).
  pose (s2 := snd (ExplainPaid.withAnyProvider
                     (getTransactionReceipt (txParam req)) s1)).
  assert (Hv : isTxHash (txParam req) = true) by run.
  assert (Htx : ExplainPaid.withAnyProvider (getTransaction (txParam req)) s0
                = (inr (Some targetTx), s1)) by run.
  assert (Hrc : ExplainPaid.withAnyProvider (getTransactionReceipt (txParam req)) s1
                = (inr None, s2)) by run.
  assert (Hfrom : normalise (tx_from targetTx) = inr (Some payer)) by run.
  assert (Hto : normalise (tx_to targetTx) = inr (Some WETH)) by run.
  unfold ExplainPaid.GET.
  rewrite (proj1 (proj2 (@explain_paid_degraded Pool staticPool abiDecoder
                           ExplainPaid.isPaymentConfirmed req s Hv))
             targetTx (Some payer) (Some WETH) s1 s2 Htx Hrc Hfrom Hto).
  run.
Defined.

(** A malformed payment reference is answered false without a call. *)
Lemma isPaymentConfirmed_calls_run :
  ExplainPaid.isPaymentConfirmed (lit "paid") (start (lastAlive baseNode))
  = (inr false, start (lastAlive baseNode)).
Proof.
  destruct (@isPaymentConfirmed_calls Pool staticPool abiDecoder (lit "paid")
              (start (lastAlive baseNode)))
    as (b & s' & calls & Hrun & Ht & _ & _ & Hbad).
  destruct (Hbad ltac:(run)) as [-> ->].
  rewrite Hrun. f_equal. destruct s' as [w t]. cbn in Ht. subst t.
  assert (Hw : world (snd (ExplainPaid.isPaymentConfirmed (lit "paid")
                             (start (lastAlive baseNode))))
               = lastAlive baseNode) by run.
  rewrite Hrun in Hw. cbn in Hw. now subst w.
Defined.

(** A rejected hash costs no call. *)
Lemma explain_call_budget_run :
  snd (Explain.GET (explainRequest (lit "0x12") None) (start allDown))
  = start allDown
  /\ snd (ExplainPaid.GET (explainRequest (lit "0x12") None) (start allDown))
     = start allDown.
Proof.
  apply (proj2 (proj2 (@explain_call_budget Pool staticPool abiDecoder
                         (explainRequest (lit "0x12") None) (start allDown)))).
  run.
Defined.

(** Two transfers of one receipt add up, in either order. *)
Lemma paid_amount_additive_run :
  getPaidAmountFromLogs [usdcTransfer oneUnitShort; usdcTransfer threeUSDC]
  = getPaidAmountFromLogs [usdcTransfer threeUSDC; usdcTransfer oneUnitShort].
Proof.
  apply (proj2 (proj2 (@paid_amount_additive abiDecoder))).
  apply perm_swap.
Defined.

(** The confirmed payment stays confirmed among other logs. *)
Lemma paid_amount_monotone_run :
  PRICE_USDC_UNITS
  <= getPaidAmountFromLogs
       ([wethApproval] ++ [usdcTransfer threeUSDC] ++ [brokenTransfer])%list.
Proof.
  apply (proj2 (proj2 (@paid_amount_monotone abiDecoder
                         [usdcTransfer threeUSDC] [wethApproval] [brokenTransfer]
                         abiDecoder_unsigned))).
  vm_compute. discriminate.
Defined.

(** The logs of the target receipt in the other order. *)
Lemma classifier_order_independent_run :
  classifyLogs [wethApproval; usdcTransfer threeUSDC]
  = classifyLogs [usdcTransfer threeUSDC; wethApproval].
Proof.
  apply (proj1 (@classifier_order_independent abiDecoder
                  [wethApproval; usdcTransfer threeUSDC]
                  [usdcTransfer threeUSDC; wethApproval] (perm_swap _ _ _))).
Defined.

(** The stablecoin address in capitals is the same contract. *)
Lemma touched_ignores_case_run :
  touchedContracts (classifyLogs [usdcTransfer threeUSDC; usdcTransferUpper])
  = touchedContracts (classifyLogs [usdcTransfer threeUSDC]).
Proof.
  apply (@touched_ignores_case abiDecoder (usdcTransfer threeUSDC)
           usdcTransferUpper []).
  run.
Defined.

(** The payment hash between a tab and a line feed. *)
Lemma padding_is_ignored_run :
  VerifyPayment.GET (verifyRequest ([9%N] ++ payHash ++ [10%N])%list)
    (start (lastAlive baseNode))
  = VerifyPayment.GET (verifyRequest payHash) (start (lastAlive baseNode)).
Proof.
  apply (proj1 (@padding_is_ignored Pool staticPool abiDecoder
                  [9%N] [10%N] [] [] targetHash payHash
                  (start (lastAlive baseNode))
                  ltac:(repeat constructor) ltac:(repeat constructor)
                  ltac:(constructor) ltac:(constructor))).
Defined.

(** The reverted payment is FAILED although its receipt is served with a
    sufficient transfer. *)
Lemma failed_receipt_is_failed_run :
  fst (VerifyPayment.verify payHash (start (lastAlive revertedNode)))
  = inr (mkPayment false FAILED None "Transaction failed.")
  /\ fst (ExplainPaid.isPaymentConfirmed payHash (start (lastAlive revertedNode)))
     = inr false.
Proof.
  set (s := start (lastAlive revertedNode)).
  pose (s1 := snd (VerifyPayment.withAnyProvider getNetwork s)).
  pose (s2 := snd (VerifyPayment.withAnyProvider (getTransactionReceipt payHash) s1)).
  pose (s' := snd (ExplainPaid.withAnyProvider (getTransactionReceipt payHash) s)).
  assert (Hne : rc_status revertedReceipt <> Some 1) by discriminate.
  assert (Hnet : VerifyPayment.withAnyProvider getNetwork s
                 = (inr BASE_CHAIN_ID, s1)) by run.
  assert (Hrc : VerifyPayment.withAnyProvider (getTransactionReceipt payHash) s1
                = (inr (Some revertedReceipt), s2)) by run.
  assert (Hrc' : ExplainPaid.withAnyProvider (getTransactionReceipt payHash) s
                 = (inr (Some revertedReceipt), s')) by run.
  destruct (@failed_receipt_is_failed Pool staticPool abiDecoder payHash
              s s1 s2 s' revertedReceipt Hne) as [Hverify Hcheck].
  destruct (Hverify Hnet Hrc) as [Hv _].
  rewrite Hv, (Hcheck ltac:(run) Hrc'). split; reflexivity.
Defined.

(** The confirmed payment: the lightweight check says true and [verify]
    says CONFIRMED. *)
Lemma lightweight_agrees_with_verify_run :
  verdictOf (ExplainPaid.isPaymentConfirmed payHash (start (lastAlive baseNode)))
  = true
  <-> statusOf (VerifyPayment.verify payHash (start (lastAlive baseNode)))
      = Some CONFIRMED.
Proof.
  set (s := start (lastAlive baseNode)).
  pose (s1 := snd (VerifyPayment.withAnyProvider getNetwork s)).
  pose (s2 := snd (VerifyPayment.withAnyProvider (getTransactionReceipt payHash) s1)).
  pose (s' := snd (ExplainPaid.withAnyProvider (getTransactionReceipt payHash) s)).
  apply (@lightweight_agrees_with_verify Pool staticPool abiDecoder payHash
           s s1 s2 s' (receiptWith 101 [usdcTransfer threeUSDC])); run.
Defined.

(** The payment hash as the page shows it. *)
Lemma shortHash_spec_run :
  Page.shortHash payHash = (lit "0x11111111" ++ [Page.ELLIPSIS] ++ lit "11111111")%list
  /\ Page.shortHash (lit "  ") = [].
Proof.
  destruct (shortHash_spec payHash) as (_ & _ & _ & Hhash).
  destruct (shortHash_spec (lit "  ")) as (_ & Hblank & _).
  split.
  - rewrite (Hhash ltac:(run)). run.
  - apply Hblank. repeat constructor.
Defined.

(** The payment address as the page shows it, and a two-letter input. *)
Lemma shortAddr_spec_run :
  length (Page.shortAddr (lit PAYMENT_ADDRESS)) = 11%nat
  /\ Page.shortAddr (lit "ab") = (lit "ab" ++ [Page.ELLIPSIS] ++ lit "ab")%list.
Proof.
  destruct (shortAddr_spec (lit PAYMENT_ADDRESS)) as (_ & _ & Hlong).
  destruct (shortAddr_spec (lit "ab")) as (_ & Hshort & _).
  split.
  - apply Hlong. vm_compute. lia.
  - apply Hshort. vm_compute. lia.
Defined.
